(** * Virtual Hairstyle AI: the Gemini service wrappers and the App orchestrator

    A shallow embedding of [services/geminiService.ts] ([analyzeFaceShape],
    [generateHairstyleImage]), of [types.ts] and of the event handlers of
    [App.tsx], followed by the properties established about them. *)

From Stdlib Require Import ZArith NArith Strings.String Strings.Ascii.
From stdpp Require Import gmap list.

(** ** JavaScript strings

    A JavaScript string is a sequence of UTF-16 code units; a code unit is a
    number below 65536, kept here as an [N]. *)

Abbreviation jsstring := (list N).

(** The code units of an ASCII literal. *)
Fixpoint js (s : string) : jsstring :=
  match s with
  | EmptyString => []
  | String a r => N_of_ascii a :: js r
  end.
Arguments js s%_string.

(** Literals that contain the double quote are written with an apostrophe in
    its place. *)
Definition dq (s : jsstring) : jsstring :=
  map (fun c => if (c =? 39)%N then 34%N else c) s.

(** [a === b] on strings. *)
Fixpoint jseq (a b : jsstring) : bool :=
  match a, b with
  | [], [] => true
  | x :: a', y :: b' => (x =? y)%N && jseq a' b'
  | _, _ => false
  end.

(** WhiteSpace and LineTerminator of ECMAScript: what [trim] removes. *)
Definition isWhiteSpace (c : N) : bool :=
  ((9 <=? c) && (c <=? 13) || (c =? 32) || (c =? 160) || (c =? 5760)
   || (8192 <=? c) && (c <=? 8202) || (c =? 8232) || (c =? 8233)
   || (c =? 8239) || (c =? 8287) || (c =? 12288) || (c =? 65279))%N.

Fixpoint trimStart (s : jsstring) : jsstring :=
  match s with
  | c :: r => if isWhiteSpace c then trimStart r else s
  | [] => []
  end.

Definition trimEnd (s : jsstring) : jsstring := rev (trimStart (rev s)).

Definition trim (s : jsstring) : jsstring := trimEnd (trimStart s).

(** [toLowerCase] on the letters A to Z.  Code units outside that range are
    left as they are: the source lower-cases only to compare with the word
    null, and no character outside A-Z lower-cases to n, u or l. *)
Definition lowerUnit (c : N) : N :=
  if ((65 <=? c) && (c <=? 90))%N then (c + 32)%N else c.

Definition toLowerCase (s : jsstring) : jsstring := map lowerUnit s.

Fixpoint startsWith (s p : jsstring) : bool :=
  match p, s with
  | [], _ => true
  | x :: p', y :: s' => (x =? y)%N && startsWith s' p'
  | _ :: _, [] => false
  end.

(** [s.includes(p)]. *)
Fixpoint includes (s p : jsstring) : bool :=
  startsWith s p ||
  match s with
  | [] => false
  | _ :: s' => includes s' p
  end.

(** A template literal prints an absent value as the word undefined. *)
Definition interpolate (v : option jsstring) : jsstring :=
  match v with
  | Some s => s
  | None => js "undefined"
  end.

(** ** JSON values and [JSON.parse] *)

(** A number literal [-d.ddd e x] is kept exactly, as sign, decimal mantissa
    and power of ten. *)
Record jsnumber := JsNumber {
  num_negative : bool;
  num_mantissa : N;
  num_exp10 : Z
}.

#[warnings="-register-all"]
Inductive json :=
| JNull
| JBool (b : bool)
| JNumber (n : jsnumber)
| JString (s : jsstring)
| JArray (items : list json)
| JObject (members : list (jsstring * json)).

(** The double nearest to the literal is zero when the mantissa is zero or
    the magnitude is at most half of the least subnormal, 2^-1075. *)
Definition roundsToZero (n : jsnumber) : bool :=
  ((num_mantissa n =? 0)%N
   || (num_exp10 n <? 0)%Z
      && (Z.of_N (num_mantissa n) * 2 ^ 1075 <=? 10 ^ (- num_exp10 n))%Z).

(** ToBoolean on a decoded value. *)
Definition truthy (v : json) : bool :=
  match v with
  | JNull => false
  | JBool b => b
  | JNumber n => negb (roundsToZero n)
  | JString s => negb (jseq s [])
  | JArray _ | JObject _ => true
  end.

(** [typeof v === 'object'] ([null] included, as in JavaScript). *)
Definition typeofObject (v : json) : bool :=
  match v with
  | JNull | JArray _ | JObject _ => true
  | _ => false
  end.

(** The value of the last member named [k]: [JSON.parse] keeps the last of
    duplicated names. *)
Fixpoint lastMember (ms : list (jsstring * json)) (k : jsstring) : option json :=
  match ms with
  | [] => None
  | (k', v) :: r =>
      match lastMember r k with
      | Some w => Some w
      | None => if jseq k' k then Some v else None
      end
  end.

(** Reading property [k] of a decoded value other than [null]; [None] is
    [undefined].  Used for the names faceShape and hairstyles only, which no
    prototype and no array or primitive wrapper supplies. *)
Definition getField (v : json) (k : jsstring) : option json :=
  match v with
  | JObject ms => lastMember ms k
  | _ => None
  end.

(** [!v] for a property value that may be [undefined]. *)
Definition falsy (v : option json) : bool :=
  match v with
  | Some w => negb (truthy w)
  | None => true
  end.

Definition isJsonSpace (c : N) : bool :=
  ((c =? 32) || (c =? 9) || (c =? 10) || (c =? 13))%N.

Fixpoint skipSpace (s : jsstring) : jsstring :=
  match s with
  | c :: r => if isJsonSpace c then skipSpace r else s
  | [] => []
  end.

Definition isDigit (c : N) : bool := ((48 <=? c) && (c <=? 57))%N.

Definition hexValue (c : N) : option N :=
  if isDigit c then Some (c - 48)%N
  else if ((97 <=? c) && (c <=? 102))%N then Some (c - 87)%N
  else if ((65 <=? c) && (c <=? 70))%N then Some (c - 55)%N
  else None.

Definition simpleEscape (c : N) : option N :=
  if (c =? 34)%N then Some 34%N
  else if (c =? 92)%N then Some 92%N
  else if (c =? 47)%N then Some 47%N
  else if (c =? 98)%N then Some 8%N
  else if (c =? 102)%N then Some 12%N
  else if (c =? 110)%N then Some 10%N
  else if (c =? 114)%N then Some 13%N
  else if (c =? 116)%N then Some 9%N
  else None.

(** The characters of a string literal after its opening quote, up to and
    including the closing quote. *)
Fixpoint parseChars (s : jsstring) (acc : jsstring) : option (jsstring * jsstring) :=
  match s with
  | [] => None
  | c :: r =>
      if (c =? 34)%N then Some (rev acc, r)
      else if (c =? 92)%N then
        match r with
        | [] => None
        | e :: r1 =>
            if (e =? 117)%N then
              match r1 with
              | h1 :: h2 :: h3 :: h4 :: r2 =>
                  match hexValue h1, hexValue h2, hexValue h3, hexValue h4 with
                  | Some a, Some b, Some c', Some d =>
                      parseChars r2 ((((a * 16 + b) * 16 + c') * 16 + d)%N :: acc)
                  | _, _, _, _ => None
                  end
              | _ => None
              end
            else
              match simpleEscape e with
              | Some x => parseChars r1 (x :: acc)
              | None => None
              end
        end
      else if (c <? 32)%N then None
      else parseChars r (c :: acc)
  end.

Fixpoint takeDigits (s : jsstring) (acc : N) (count : nat) : N * nat * jsstring :=
  match s with
  | c :: r =>
      if isDigit c then takeDigits r (acc * 10 + (c - 48))%N (S count)
      else (acc, count, s)
  | [] => (acc, count, [])
  end.

Definition parseInt (s : jsstring) : option (N * jsstring) :=
  match s with
  | c :: r =>
      if (c =? 48)%N then Some (0%N, r)
      else if isDigit c then
        let '(m, _, r') := takeDigits s 0 0 in Some (m, r')
      else None
  | [] => None
  end.

Definition parseFrac (m : N) (s : jsstring) : option (N * nat * jsstring) :=
  match s with
  | c :: r =>
      if (c =? 46)%N then
        let '(m', k, r') := takeDigits r m 0 in
        match k with O => None | _ => Some (m', k, r') end
      else Some (m, O, s)
  | [] => Some (m, O, [])
  end.

Definition parseExp (s : jsstring) : option (Z * jsstring) :=
  match s with
  | c :: r =>
      if ((c =? 101) || (c =? 69))%N then
        let '(neg, r1) :=
          match r with
          | g :: r' =>
              if (g =? 43)%N then (false, r')
              else if (g =? 45)%N then (true, r')
              else (false, r)
          | [] => (false, r)
          end in
        let '(e, k, r2) := takeDigits r1 0 0 in
        match k with
        | O => None
        | _ => Some (if neg : bool then (- Z.of_N e)%Z else Z.of_N e, r2)
        end
      else Some (0%Z, s)
  | [] => Some (0%Z, [])
  end.

Definition parseNumber (s : jsstring) : option (jsnumber * jsstring) :=
  let '(neg, s1) :=
    match s with
    | c :: r => if (c =? 45)%N then (true, r) else (false, s)
    | [] => (false, s)
    end in
  '(m, s2) ← parseInt s1;
  '(m', k, s3) ← parseFrac m s2;
  '(e, s4) ← parseExp s3;
  Some (JsNumber neg m' (e - Z.of_nat k), s4).

Definition stripPrefix (p s : jsstring) : option jsstring :=
  if startsWith s p then Some (drop (length p) s) else None.

(** One JSON value at the head of [s], after leading white space; the words
    true, false and null are spelled by their code units.  [fuel] bounds the
    number of values entered on the way down; [JSON_parse] supplies twice the
    length of the text. *)
Fixpoint parseValue (fuel : nat) (s : jsstring) : option (json * jsstring) :=
  match fuel with
  | O => None
  | S fuel' =>
      match skipSpace s with
      | [] => None
      | c :: r =>
          if (c =? 123)%N then
            match skipSpace r with
            | [] => None
            | c' :: r' =>
                if (c' =? 125)%N then Some (JObject [], r')
                else parseMembers fuel' (c' :: r') []
            end
          else if (c =? 91)%N then
            match skipSpace r with
            | [] => None
            | c' :: r' =>
                if (c' =? 93)%N then Some (JArray [], r')
                else parseElements fuel' (c' :: r') []
            end
          else if (c =? 34)%N then
            '(str, r') ← parseChars r [];
            Some (JString str, r')
          else if (c =? 116)%N then
            r' ← stripPrefix [116; 114; 117; 101]%N (c :: r); Some (JBool true, r')
          else if (c =? 102)%N then
            r' ← stripPrefix [102; 97; 108; 115; 101]%N (c :: r); Some (JBool false, r')
          else if (c =? 110)%N then
            r' ← stripPrefix [110; 117; 108; 108]%N (c :: r); Some (JNull, r')
          else
            '(n, r') ← parseNumber (c :: r);
            Some (JNumber n, r')
      end
  end
with parseElements (fuel : nat) (s : jsstring) (acc : list json)
  : option (json * jsstring) :=
  match fuel with
  | O => None
  | S fuel' =>
      match parseValue fuel' s with
      | None => None
      | Some (v, r) =>
          match skipSpace r with
          | [] => None
          | c :: r' =>
              if (c =? 44)%N then parseElements fuel' r' (v :: acc)
              else if (c =? 93)%N then Some (JArray (rev (v :: acc)), r')
              else None
          end
      end
  end
with parseMembers (fuel : nat) (s : jsstring) (acc : list (jsstring * json))
  : option (json * jsstring) :=
  match fuel with
  | O => None
  | S fuel' =>
      match skipSpace s with
      | [] => None
      | q :: r =>
          if (q =? 34)%N then
            match parseChars r [] with
            | None => None
            | Some (k, r1) =>
                match skipSpace r1 with
                | [] => None
                | c1 :: r2 =>
                    if (c1 =? 58)%N then
                      match parseValue fuel' r2 with
                      | None => None
                      | Some (v, r3) =>
                          match skipSpace r3 with
                          | [] => None
                          | c3 :: r4 =>
                              if (c3 =? 44)%N then
                                parseMembers fuel' r4 ((k, v) :: acc)
                              else if (c3 =? 125)%N then
                                Some (JObject (rev ((k, v) :: acc)), r4)
                              else None
                          end
                      end
                    else None
                end
            end
          else None
      end
  end.

(** [JSON.parse(s)]: the decoded value, or [None] where JavaScript throws a
    SyntaxError. *)
Definition JSON_parse (s : jsstring) : option json :=
  match parseValue (2 * length s + 2) s with
  | Some (v, r) =>
      match skipSpace r with
      | [] => Some v
      | _ :: _ => None
      end
  | None => None
  end.


(** ** Thrown values and settled promises *)

(** What a [catch] clause can receive: an object for which
    [instanceof Error] holds, with its [name] and [message], or some other
    value. *)
Inductive thrown :=
| ErrorObject (name message : jsstring)
| OtherValue.

(** [new Error(message)]. *)
Definition newError (message : jsstring) : thrown :=
  ErrorObject (js "Error") message.

(** How an awaited call ends. *)
Inductive settled (A : Type) :=
| Fulfilled (a : A)
| Rejected (e : thrown).
Arguments Fulfilled {A} a.
Arguments Rejected {A} e.

(** The texts that ECMAScript leaves to the implementation. *)
Inductive TypeErrorCause :=
| ReadPartsOfUndefined
| IterateUndefined.

Class Engine := {
  syntaxErrorMessage : jsstring -> jsstring;
  typeErrorMessage : TypeErrorCause -> jsstring
}.

(** An engine with fixed message texts, to evaluate the functions on
    examples. *)
Definition plainEngine : Engine := {|
  syntaxErrorMessage := fun _ => js "Unexpected token in JSON";
  typeErrorMessage := fun c =>
    match c with
    | ReadPartsOfUndefined =>
        js "Cannot read properties of undefined (reading 'parts')"
    | IterateUndefined => js "undefined is not iterable"
    end
|}.

(** ** The response of [ai.models.generateContent]

    The SDK declares every field of [GenerateContentResponse], [Candidate],
    [Content], [Part] and [Blob] optional; an absent field is [None]. *)
Module GenAI.

Record Blob := {
  data : option jsstring;
  mimeType : option jsstring
}.

Record Part := {
  inlineData : option Blob;
  text : option jsstring
}.

Record Content := {
  parts : option (list Part)
}.

Record Candidate := {
  content : option Content
}.

Record PromptFeedback := {
  blockReason : option jsstring
}.

Record GenerateContentResponse := {
  promptFeedback : option PromptFeedback;
  candidates : option (list Candidate)
}.

End GenAI.

(** ** services/geminiService.ts *)

Definition fileToGenerativePart (base64Data mimeType : jsstring) : GenAI.Part :=
  {| GenAI.inlineData :=
       Some {| GenAI.data := Some base64Data; GenAI.mimeType := Some mimeType |};
     GenAI.text := None |}.

Definition EmptyResponseError : thrown :=
  newError (js "AI mengembalikan respons kosong. Coba foto lain.").

Definition MalformedResponseError : thrown :=
  newError (js "AI mengembalikan data dalam format yang tidak terduga. Silakan coba lagi.").

Definition AnalysisFailedError : thrown :=
  newError (js "Gagal menganalisis gambar. Silakan coba foto lain.").

(** [!jsonString || jsonString.trim() === '' ||
     jsonString.trim().toLowerCase() === 'null'], for [response.text]. *)
Definition isEmptyResponse (jsonString : option jsstring) : bool :=
  match jsonString with
  | None => true
  | Some s =>
      jseq s [] || jseq (trim s) [] || jseq (toLowerCase (trim s)) (js "null")
  end.

(** [!result || typeof result !== 'object' || !result.faceShape ||
     !result.hairstyles]. *)
Definition isInvalidStructure (result : json) : bool :=
  negb (truthy result) || negb (typeofObject result)
  || falsy (getField result (js "faceShape"))
  || falsy (getField result (js "hairstyles")).

(** ** types.ts *)

Inductive AppState :=
| INITIAL
| IMAGE_UPLOADED
| ANALYZING
| ANALYZED
| GENERATING
| COMPLETE
| ERROR.

Inductive FaceShape := Oval | Round | Square | Heart | Diamond | Unknown.

Record HairstyleSuggestion := {
  name : jsstring;
  description : jsstring
}.

Record AnalysisResult := {
  faceShape : FaceShape;
  originalHairLength : jsstring;
  hairstyles : list HairstyleSuggestion
}.

(** The members of the union type [HaircutPreference]; at run time a
    preference is a string. *)
Definition HaircutPreference : list jsstring :=
  [js "Rapikan"; js "Sedang"; js "Pendek"].

(** ** The generation prompt *)

(** The table of [generateHairstyleImage]. *)
Definition preferenceDefinitions : list (jsstring * jsstring) :=
  [ (js "Sedang",
     js "Potongan sedang yang terlihat. Kurangi panjang rambut secara signifikan, tetapi jangan membuatnya menjadi potongan yang sangat pendek. Perubahannya harus jelas dan nyata.");
    (js "Pendek",
     js "Transformasi besar menjadi potongan pendek. Ubah gaya rambut menjadi versi yang jauh lebih pendek dari aslinya (misalnya, dari panjang menjadi bob, atau dari sebahu menjadi pixie).");
    (js "Super Pendek",
     js "Transformasi ekstrem menjadi potongan yang sangat pendek dan berani. Ini adalah opsi terpendek. Pikirkan potongan pixie, undercut, atau bob yang sangat pendek, terlepas dari panjang aslinya. Perubahannya harus sangat dramatis.") ].

(** The table of the second copy of the service file, whose prompt reads it
    at the three fixed keys only. *)
Definition preferenceDefinitions_secondCopy : list (jsstring * jsstring) :=
  [ (js "Rapikan",
     js "Hanya trim ringan. Buat rambut terlihat lebih rapi dan sehat, hilangkan ujung bercabang, tetapi pertahankan panjang umum yang sama atau sedikit lebih pendek.");
    (js "Sedang",
     js "Potongan sedang yang terlihat. Kurangi panjang rambut secara signifikan, tetapi jangan membuatnya menjadi potongan yang sangat pendek. Perubahannya harus jelas.");
    (js "Pendek",
     js "Transformasi besar menjadi potongan pendek. Ubah gaya rambut menjadi versi yang jauh lebih pendek dari aslinya (misalnya, dari panjang menjadi bob, atau dari sebahu menjadi pixie).") ].

(** [table[key]] on an object literal: the value of the own property, or
    [undefined].  The members that every object inherits ([constructor],
    [toString] and the like) are not in the model: the keys looked up in this
    development are cut preferences. *)
Fixpoint lookupDefinition (table : list (jsstring * jsstring)) (key : jsstring)
  : option jsstring :=
  match table with
  | [] => None
  | (k, v) :: r => if jseq k key then Some v else lookupDefinition r key
  end.

Definition joinLines (ls : list jsstring) : jsstring :=
  match ls with
  | [] => []
  | l :: r => l ++ concat (map (fun x => 10%N :: x) r)
  end.

(** The template literal [prompt] of [generateHairstyleImage]. *)
Definition prompt (hairstyleName haircutPreference : jsstring) : jsstring :=
  joinLines [
      js "Anda adalah editor foto ahli dengan satu tugas spesifik: memodifikasi rambut seseorang dalam foto agar lebih pendek, sesuai dengan tingkat potongan yang diminta.";
      [];
      js "**PERINTAH UTAMA (TIDAK BISA DITAWAR):**";
      js "Anda HARUS mengubah rambut di foto agar secara visual cocok dengan deskripsi tingkat potongan ini:";
      js "- **Tingkat Potongan:** '" ++ haircutPreference ++ js "'";
      js "- **Definisi:** '" ++ interpolate (lookupDefinition preferenceDefinitions haircutPreference) ++ js "'";
      js "Ini adalah tujuan utama Anda. Panjang rambut di hasil akhir WAJIB sesuai dengan definisi ini.";
      [];
      js "**INSPIRASI GAYA (SEKUNDER):**";
      js "Setelah Anda memastikan panjangnya benar, gunakan nama gaya rambut berikut sebagai INSPIRASI untuk tekstur dan bentuk potongan:";
      js "- **Inspirasi Gaya:** '" ++ hairstyleName ++ js "'";
      [];
      js "**CONTOH LOGIKA & ATURAN TEGAS:**";
      js "- JIKA Tingkat Potongan adalah 'Pendek' DAN Inspirasi adalah 'Gelombang Pantai Panjang', maka hasil Anda HARUS berupa gaya rambut PENDEK (seperti bob atau pixie) yang memiliki tekstur bergelombang. JANGAN membuat rambut panjang.";
      js "- JIKA Tingkat Potongan adalah 'Sedang' DAN Inspirasi adalah 'Potongan Pixie', dan rambut asli sudah pendek, maka Anda harus memotongnya sedikit lebih pendek lagi sesuai definisi 'Sedang'. JANGAN memanjangkannya.";
      js "- Prioritaskan selalu Tingkat Potongan di atas Inspirasi Gaya.";
      [];
      js "**LARANGAN:**";
      js "- JANGAN mengubah apa pun selain rambut (wajah, ekspresi, pakaian, latar belakang, pencahayaan harus identik).";
      js "- JANGAN mengabaikan 'Tingkat Potongan'. Ini adalah kegagalan tugas.";
      js "- JANGAN membuat hasil yang terlihat seperti gambar AI; harus fotorealistis.";
      [];
      js "Terapkan perubahan ini sekarang pada gambar yang diberikan."
  ].

(** The [contents.parts] sent with the generation request. *)
Definition generationRequestParts
  (imageBase64 mimeType hairstyleName originalHairLength haircutPreference : jsstring)
  : list GenAI.Part :=
  [ fileToGenerativePart imageBase64 mimeType;
    {| GenAI.inlineData := None;
       GenAI.text := Some (prompt hairstyleName haircutPreference) |} ].

Record GeneratedImage := {
  imageUrl : jsstring;
  text : jsstring
}.

Definition BlockedRequestError (blockReason : jsstring) : thrown :=
  newError (js "Gagal membuat gambar karena permintaan diblokir: "
            ++ blockReason ++ js ". Coba gaya atau foto lain.").

Definition NoImageProducedError : thrown :=
  newError (js "AI tidak dapat menghasilkan gambar untuk gaya rambut ini. Silakan coba yang lain.").

Definition GenerationFailedError : thrown :=
  newError (js "Gagal menghasilkan gaya rambut baru. Silakan coba lagi atau pilih gaya yang berbeda.").

(** [response.promptFeedback?.blockReason] when it is truthy. *)
Definition reportedBlockReason (response : GenAI.GenerateContentResponse)
  : option jsstring :=
  match GenAI.promptFeedback response with
  | Some feedback =>
      match GenAI.blockReason feedback with
      | Some reason => if jseq reason [] then None else Some reason
      | None => None
      end
  | None => None
  end.

(** The data URL built from an inline image. *)
Definition dataUrl (blob : GenAI.Blob) : jsstring :=
  js "data:" ++ interpolate (GenAI.mimeType blob) ++ js ";base64,"
  ++ interpolate (GenAI.data blob).

(** One turn of the loop over the parts: the state is
    [(generatedImageUrl, generatedText)]. *)
Definition scanPart (state : jsstring * jsstring) (part : GenAI.Part)
  : jsstring * jsstring :=
  match GenAI.inlineData part with
  | Some blob => (dataUrl blob, snd state)
  | None =>
      match GenAI.text part with
      | Some t => if jseq t [] then state else (fst state, t)
      | None => state
      end
  end.

Definition scanParts (parts : list GenAI.Part) (state : jsstring * jsstring)
  : jsstring * jsstring :=
  foldl scanPart state parts.

Section Service.
Context `{Engine}.

(** The [try] block of [analyzeFaceShape], from the point where the awaited
    call has settled with [response.text]. *)
Definition analyzeFaceShape_try (response : settled (option jsstring))
  : settled json :=
  match response with
  | Rejected e => Rejected e
  | Fulfilled jsonString =>
      match (if isEmptyResponse jsonString then None else jsonString) with
      | None => Rejected EmptyResponseError
      | Some s =>
          match JSON_parse s with
          | None =>
              Rejected (ErrorObject (js "SyntaxError") (syntaxErrorMessage s))
          | Some result =>
              if isInvalidStructure result then Rejected MalformedResponseError
              else Fulfilled result
          end
      end
  end.

(** The [catch] block of [analyzeFaceShape]: what is thrown in the end. *)
Definition analyzeFaceShape_catch (error : thrown) : thrown :=
  match error with
  | ErrorObject _ message =>
      if includes message (js "AI mengembalikan") then error
      else AnalysisFailedError
  | OtherValue => AnalysisFailedError
  end.

Definition analyzeFaceShape (response : settled (option jsstring))
  : settled json :=
  match analyzeFaceShape_try response with
  | Fulfilled result => Fulfilled result
  | Rejected error => Rejected (analyzeFaceShape_catch error)
  end.

(** The [try] block of [generateHairstyleImage], from the point where the
    awaited call has settled. *)
Definition generateHairstyleImage_try
  (response : settled GenAI.GenerateContentResponse) : settled GeneratedImage :=
  match response with
  | Rejected e => Rejected e
  | Fulfilled response =>
      match reportedBlockReason response with
      | Some reason => Rejected (BlockedRequestError reason)
      | None =>
          let initial := ([], js "Ini dia tampilan baru Anda!") in
          let scanned :=
            match GenAI.candidates response with
            | Some (first :: _) =>
                match GenAI.content first with
                | None =>
                    Rejected (ErrorObject (js "TypeError")
                                (typeErrorMessage ReadPartsOfUndefined))
                | Some content =>
                    match GenAI.parts content with
                    | None =>
                        Rejected (ErrorObject (js "TypeError")
                                    (typeErrorMessage IterateUndefined))
                    | Some parts => Fulfilled (scanParts parts initial)
                    end
                end
            | Some [] | None => Fulfilled initial
            end in
          match scanned with
          | Rejected e => Rejected e
          | Fulfilled (generatedImageUrl, generatedText) =>
              if jseq generatedImageUrl [] then Rejected NoImageProducedError
              else Fulfilled {| imageUrl := generatedImageUrl;
                                text := generatedText |}
          end
      end
  end.

(** The [catch] block of [generateHairstyleImage]. *)
Definition generateHairstyleImage_catch (error : thrown) : thrown :=
  match error with
  | ErrorObject _ _ => error
  | OtherValue => GenerationFailedError
  end.

Definition generateHairstyleImage
  (response : settled GenAI.GenerateContentResponse) : settled GeneratedImage :=
  match generateHairstyleImage_try response with
  | Fulfilled result => Fulfilled result
  | Rejected error => Rejected (generateHairstyleImage_catch error)
  end.

End Service.

(** ** App.tsx

    The component state, the event handlers, and the asynchronous work they
    leave pending.  The camera dialog and the rendering are not part of the
    model. *)

(** The selection list offered to the user: value and label. *)
Definition haircutPreferences : list (jsstring * jsstring) :=
  [ (js "Sedang", js "Potongan Sedang");
    (js "Pendek", js "Potongan Pendek");
    (js "Super Pendek", js "Potongan Super Pendek") ].

Record OriginalImage := {
  url : jsstring;
  base64 : jsstring;
  mimeType : jsstring
}.

(** A value of [GeneratedImageState]; the key is the hairstyle name. *)
Record GeneratedImageEntry := {
  entry_url : option jsstring;
  entry_error : option jsstring;
  loading : bool
}.

(** The [useState] cells of [App]. *)
Record App := {
  appState : AppState;
  originalImage : option OriginalImage;
  analysisResult : option AnalysisResult;
  haircutPreference : option jsstring;
  generatedImages : gmap jsstring GeneratedImageEntry;
  error : option jsstring
}.

Definition setAppState (v : AppState) (s : App) : App :=
  {| appState := v; originalImage := originalImage s;
     analysisResult := analysisResult s;
     haircutPreference := haircutPreference s;
     generatedImages := generatedImages s; error := error s |}.

Definition setOriginalImage (v : option OriginalImage) (s : App) : App :=
  {| appState := appState s; originalImage := v;
     analysisResult := analysisResult s;
     haircutPreference := haircutPreference s;
     generatedImages := generatedImages s; error := error s |}.

Definition setAnalysisResult (v : option AnalysisResult) (s : App) : App :=
  {| appState := appState s; originalImage := originalImage s;
     analysisResult := v; haircutPreference := haircutPreference s;
     generatedImages := generatedImages s; error := error s |}.

Definition setHaircutPreference (v : option jsstring) (s : App) : App :=
  {| appState := appState s; originalImage := originalImage s;
     analysisResult := analysisResult s; haircutPreference := v;
     generatedImages := generatedImages s; error := error s |}.

(** [setGeneratedImages(prev => f(prev))]. *)
Definition setGeneratedImages
  (f : gmap jsstring GeneratedImageEntry -> gmap jsstring GeneratedImageEntry)
  (s : App) : App :=
  {| appState := appState s; originalImage := originalImage s;
     analysisResult := analysisResult s;
     haircutPreference := haircutPreference s;
     generatedImages := f (generatedImages s); error := error s |}.

Definition setError (v : option jsstring) (s : App) : App :=
  {| appState := appState s; originalImage := originalImage s;
     analysisResult := analysisResult s;
     haircutPreference := haircutPreference s;
     generatedImages := generatedImages s; error := v |}.

(** The arguments of one call of [generateHairstyleImage]. *)
Module Call.
Record t := {
  imageBase64 : jsstring;
  mimeType : jsstring;
  hairstyleName : jsstring;
  originalHairLength : jsstring;
  haircutPreference : jsstring
}.
End Call.

(** The component together with the promises that have not settled yet.  A
    settled promise leaves its place ([false], [None]) behind, so that a
    position names the same promise for good.  Each element of
    [generationBatches] is the array [generationPromises] of one run of
    [handlePreferenceSelect], awaited as a whole by [Promise.allSettled]. *)
Record World := {
  component : App;
  fileReads : list bool;
  analysisCalls : list (option (jsstring * jsstring));
  generationBatches : list (list (option Call.t))
}.

Definition withComponent (f : App -> App) (w : World) : World :=
  {| component := f (component w); fileReads := fileReads w;
     analysisCalls := analysisCalls w;
     generationBatches := generationBatches w |}.

Definition initialApp : App :=
  {| appState := INITIAL; originalImage := None; analysisResult := None;
     haircutPreference := None; generatedImages := ∅; error := None |}.

Definition initialWorld : World :=
  {| component := initialApp; fileReads := []; analysisCalls := [];
     generationBatches := [] |}.

(** [error.message || fallback]. *)
Definition messageOr (e : thrown) (fallback : jsstring) : jsstring :=
  match e with
  | ErrorObject _ message => if jseq message [] then fallback else message
  | OtherValue => fallback
  end.

Definition handleReset (s : App) : App :=
  setError None
    (setGeneratedImages (fun _ => ∅)
       (setHaircutPreference None
          (setAnalysisResult None
             (setOriginalImage None (setAppState INITIAL s))))).

(** [processFile] up to its [await]: the reset, and [toBase64] started. *)
Definition processFile (w : World) : World :=
  {| component := handleReset (component w);
     fileReads := fileReads w ++ [true];
     analysisCalls := analysisCalls w;
     generationBatches := generationBatches w |}.

(** [processFile] after its [await]: [toBase64] number [i] has settled, with
    the image or with a failure. *)
Definition processFile_resume (w : World) (i : nat) (r : option OriginalImage)
  : World :=
  match fileReads w !! i with
  | Some true =>
      {| component :=
           match r with
           | Some image =>
               setAppState IMAGE_UPLOADED
                 (setOriginalImage (Some image) (component w))
           | None =>
               setAppState ERROR
                 (setError
                    (Some (js "Tidak dapat memproses file gambar. Silakan coba lagi."))
                    (component w))
           end;
         fileReads := <[i := false]> (fileReads w);
         analysisCalls := analysisCalls w;
         generationBatches := generationBatches w |}
  | _ => w
  end.

(** [handleAnalyzeClick] up to its [await]. *)
Definition handleAnalyzeClick (w : World) : World :=
  match originalImage (component w) with
  | None => w
  | Some image =>
      {| component :=
           setGeneratedImages (fun _ => ∅)
             (setHaircutPreference None
                (setError None (setAppState ANALYZING (component w))));
         fileReads := fileReads w;
         analysisCalls := analysisCalls w ++ [Some (base64 image, mimeType image)];
         generationBatches := generationBatches w |}
  end.

(** [handleAnalyzeClick] after its [await].  The result is taken in the
    declared type [AnalysisResult], which is what the handlers below are
    written for; [analyzeFaceShape] checks two members for presence only, and
    what it lets through outside that type is not followed further. *)
Definition handleAnalyzeClick_resume (w : World) (i : nat)
  (r : settled AnalysisResult) : World :=
  match analysisCalls w !! i with
  | Some (Some _) =>
      {| component :=
           match r with
           | Fulfilled result =>
               setAppState ANALYZED
                 (setAnalysisResult (Some result) (component w))
           | Rejected err =>
               setAppState ERROR
                 (setError
                    (Some (messageOr err
                             (js "Terjadi kesalahan yang tidak diketahui saat analisis.")))
                    (component w))
           end;
         fileReads := fileReads w;
         analysisCalls := <[i := None]> (analysisCalls w);
         generationBatches := generationBatches w |}
  | _ => w
  end.

Definition isGENERATING (a : AppState) : bool :=
  match a with
  | GENERATING => true
  | _ => false
  end.

Definition loadingEntry : GeneratedImageEntry :=
  {| entry_url := None; entry_error := None; loading := true |}.

(** The object built by the [forEach] of [handlePreferenceSelect]. *)
Definition initialImageStates (styles : list HairstyleSuggestion)
  : gmap jsstring GeneratedImageEntry :=
  foldl (fun m style => <[name style := loadingEntry]> m) ∅ styles.

(** The calls made by the [map] of [handlePreferenceSelect]. *)
Definition generationCalls (image : OriginalImage) (analysis : AnalysisResult)
  (preference : jsstring) : list Call.t :=
  map (fun style =>
         {| Call.imageBase64 := base64 image;
            Call.mimeType := mimeType image;
            Call.hairstyleName := name style;
            Call.originalHairLength := originalHairLength analysis;
            Call.haircutPreference := preference |})
      (hairstyles analysis).

(** [handlePreferenceSelect] up to its [await]; [Promise.allSettled] of an
    empty array is settled at once. *)
Definition handlePreferenceSelect (w : World) (preference : jsstring) : World :=
  match originalImage (component w), analysisResult (component w) with
  | Some image, Some analysis =>
      if isGENERATING (appState (component w)) then w
      else
        let calls := generationCalls image analysis preference in
        let started :=
          setGeneratedImages (fun _ => initialImageStates (hairstyles analysis))
            (setAppState GENERATING
               (setHaircutPreference (Some preference) (component w))) in
        {| component :=
             match calls with
             | [] => setAppState COMPLETE started
             | _ :: _ => started
             end;
           fileReads := fileReads w;
           analysisCalls := analysisCalls w;
           generationBatches := generationBatches w ++ [map Some calls] |}
  | _, _ => w
  end.

(** The entry written by the [then] or the [catch] attached to a call. *)
Definition settledEntry (r : settled GeneratedImage) : GeneratedImageEntry :=
  match r with
  | Fulfilled result =>
      {| entry_url := Some (imageUrl result); entry_error := None;
         loading := false |}
  | Rejected err =>
      {| entry_url := None;
         entry_error := Some (messageOr err (js "Gagal membuat gambar."));
         loading := false |}
  end.

Definition allSettled (batch : list (option Call.t)) : bool :=
  forallb (fun p => match p with None => true | Some _ => false end) batch.

(** Call [i] of batch [b] settles: its [then] or [catch] writes the entry,
    and when it was the last one of its batch, [handlePreferenceSelect]
    resumes after [await Promise.allSettled] and sets COMPLETE. *)
Definition handlePreferenceSelect_resume (w : World) (b i : nat)
  (r : settled GeneratedImage) : World :=
  match generationBatches w !! b with
  | Some batch =>
      match batch !! i with
      | Some (Some call) =>
          let batch' := <[i := None]> batch in
          let written :=
            setGeneratedImages
              (fun prev => <[Call.hairstyleName call := settledEntry r]> prev)
              (component w) in
          {| component :=
               if allSettled batch' then setAppState COMPLETE written
               else written;
             fileReads := fileReads w;
             analysisCalls := analysisCalls w;
             generationBatches := <[b := batch']> (generationBatches w) |}
      | _ => w
      end
  | None => w
  end.

(** What can happen next: a user action, or a pending promise settling. *)
Inductive Event :=
| ResetClick
| FileChosen
| FileRead (i : nat) (r : option OriginalImage)
| AnalyzeClick
| AnalysisSettled (i : nat) (r : settled AnalysisResult)
| PreferenceSelect (preference : jsstring)
| GenerationSettled (b i : nat) (r : settled GeneratedImage).

Definition dispatch (w : World) (e : Event) : World :=
  match e with
  | ResetClick => withComponent handleReset w
  | FileChosen => processFile w
  | FileRead i r => processFile_resume w i r
  | AnalyzeClick => handleAnalyzeClick w
  | AnalysisSettled i r => handleAnalyzeClick_resume w i r
  | PreferenceSelect preference => handlePreferenceSelect w preference
  | GenerationSettled b i r => handlePreferenceSelect_resume w b i r
  end.

Definition run (w : World) (events : list Event) : World :=
  foldl dispatch w events.

(** ** Sample inputs *)

Definition sampleImage : OriginalImage :=
  {| url := js "blob:selfie"; base64 := js "QUJD"; mimeType := js "image/png" |}.

Definition sampleAnalysis : AnalysisResult :=
  {| faceShape := Oval;
     originalHairLength := js "Long";
     hairstyles :=
       [ {| name := js "Bob"; description := js "d1" |};
         {| name := js "Pixie"; description := js "d2" |};
         {| name := js "Layers"; description := js "d3" |} ] |}.

(** The world after a photo was chosen, read and analysed. *)
Definition analyzedWorld : World :=
  run initialWorld
    [ FileChosen; FileRead 0 (Some sampleImage);
      AnalyzeClick; AnalysisSettled 0 (Fulfilled sampleAnalysis) ].

Definition sampleResult : GeneratedImage :=
  {| imageUrl := js "data:image/png;base64,AAAA"; text := js "ok" |}.

(** ** The texts counted as an empty response *)

Definition allWhiteSpace (s : jsstring) : Prop :=
  Forall (fun c => isWhiteSpace c = true) s.

(** [c] is the lower-case letter [l] or its capital. *)
Definition letter (l c : N) : Prop := c = l \/ (c + 32)%N = l.

(** The word null in any mix of capitals and small letters. *)
Definition nullWord (w : jsstring) : Prop :=
  exists a b c d,
    w = [a; b; c; d] /\ letter 110 a /\ letter 117 b /\ letter 108 c /\ letter 108 d.

(** Absent, empty or blank text, or the word null, with or without white
    space around it. *)
Inductive emptyText : option jsstring -> Prop :=
| emptyText_absent : emptyText None
| emptyText_blank s : allWhiteSpace s -> emptyText (Some s)
| emptyText_null pre w post :
    allWhiteSpace pre -> nullWord w -> allWhiteSpace post ->
    emptyText (Some (pre ++ w ++ post)).

(** The test of the [catch] block of [analyzeFaceShape]: an Error object
    whose message contains the text that both validation messages start
    with. *)
Definition carriesMarker (e : thrown) : bool :=
  match e with
  | ErrorObject _ message => includes message (js "AI mengembalikan")
  | OtherValue => false
  end.

(** A rejection of the analysis service that is neither validation error but
    whose message happens to contain the marked text. *)
Definition markedServiceError : thrown :=
  ErrorObject (js "ApiError") (js "AI mengembalikan status 503").

Definition plainServiceError : thrown :=
  ErrorObject (js "ApiError") (js "503 Service Unavailable").

(** A well-formed analysis whose list of hairstyles is empty. *)
Definition noHairstylesText : jsstring :=
  dq (js "{'faceShape':'Oval','originalHairLength':'Long','hairstyles':[]}").

Definition noHairstylesValue : json :=
  JObject [ (js "faceShape", JString (js "Oval"));
            (js "originalHairLength", JString (js "Long"));
            (js "hairstyles", JArray []) ].

(** An analysis without the field faceShape. *)
Definition noFaceShapeText : jsstring :=
  dq (js "{'originalHairLength':'Long','hairstyles':[{'name':'Bob','description':'d1'}]}").

(** The inline images among some parts, in order. *)
Definition inlineImages (parts : list GenAI.Part) : list GenAI.Blob :=
  omap GenAI.inlineData parts.

(** The parts that the loop of [generateHairstyleImage] goes through: those
    of the first candidate, none when there is no candidate; [None] when
    reading them throws. *)
Definition scannedParts (response : GenAI.GenerateContentResponse)
  : option (list GenAI.Part) :=
  match GenAI.candidates response with
  | Some (first :: _) =>
      match GenAI.content first with
      | Some content => GenAI.parts content
      | None => None
      end
  | Some [] | None => Some []
  end.

Definition withCandidates (candidates : option (list GenAI.Candidate))
  (response : GenAI.GenerateContentResponse) : GenAI.GenerateContentResponse :=
  {| GenAI.promptFeedback := GenAI.promptFeedback response;
     GenAI.candidates := candidates |}.

Definition imagePart (mime data : jsstring) : GenAI.Part :=
  {| GenAI.inlineData :=
       Some {| GenAI.data := Some data; GenAI.mimeType := Some mime |};
     GenAI.text := None |}.

Definition textPart (t : jsstring) : GenAI.Part :=
  {| GenAI.inlineData := None; GenAI.text := Some t |}.

Definition candidateOf (parts : list GenAI.Part) : GenAI.Candidate :=
  {| GenAI.content := Some {| GenAI.parts := Some parts |} |}.

(** A response stopped for policy reasons. *)
Definition blockedResponse : GenAI.GenerateContentResponse :=
  {| GenAI.promptFeedback := Some {| GenAI.blockReason := Some (js "SAFETY") |};
     GenAI.candidates := None |}.

(** A response whose only candidate was cut short and carries no content. *)
Definition contentlessResponse : GenAI.GenerateContentResponse :=
  {| GenAI.promptFeedback := None;
     GenAI.candidates := Some [ {| GenAI.content := None |} ] |}.

(** Two images and a text in the first candidate, an image in the second. *)
Definition twoCandidatesResponse : GenAI.GenerateContentResponse :=
  {| GenAI.promptFeedback := None;
     GenAI.candidates :=
       Some [ candidateOf [ imagePart (js "image/png") (js "AAAA");
                            textPart (js "Selesai");
                            imagePart (js "image/jpeg") (js "BBBB") ];
              candidateOf [ imagePart (js "image/png") (js "CCCC");
                            textPart (js "lain") ] ] |}.

(** The calls of a batch that have not settled. *)
Fixpoint pendingCount (batch : list (option Call.t)) : nat :=
  match batch with
  | [] => 0
  | Some _ :: r => S (pendingCount r)
  | None :: r => pendingCount r
  end.

(** The calls of batch [b] settling one after the other, in the given order
    and with the given outcomes. *)
Definition settleEvents (b : nat) (order : list (nat * settled GeneratedImage))
  : list Event :=
  map (fun ir => GenerationSettled b (fst ir) (snd ir)) order.

(** The sample photo analysed and a preference chosen: three calls in
    flight. *)
Definition generatingWorld : World :=
  dispatch analyzedWorld (PreferenceSelect (js "Pendek")).

(** Then the reset button pressed before any call has settled. *)
Definition resetWorld : World := dispatch generatingWorld ResetClick.

Definition otherAnalysis : AnalysisResult :=
  {| faceShape := Round;
     originalHairLength := js "Sebahu";
     hairstyles := [ {| name := js "Shag"; description := js "d4" |} ] |}.

(** After the reset a new photo is read and analysed and a preference is
    chosen again, while the three calls of the first run are still in
    flight. *)
Definition secondRunWorld : World :=
  run resetWorld
    [ FileChosen; FileRead 1 (Some sampleImage);
      AnalyzeClick; AnalysisSettled 1 (Fulfilled otherAnalysis);
      PreferenceSelect (js "Sedang") ].

(** The analysis of the sample photo as the service sends it. *)
Definition sampleAnalysisText : jsstring :=
  dq (js "{ 'faceShape': 'Oval', 'originalHairLength': 'Long', 'hairstyles': [ {'name':'Bob','description':'d1'}, {'name':'Pixie','description':'d2'}, {'name':'Layers','description':'d3'} ] }").

(** ** [toBase64] of App.tsx *)

(** [s.split(sep)] for a separator of one code unit: the pieces between the
    separators, one piece for a text without separator. *)
Fixpoint split (sep : N) (s : jsstring) : list jsstring :=
  match s with
  | [] => [[]]
  | c :: r =>
      if (c =? sep)%N then [] :: split sep r
      else
        match split sep r with
        | piece :: pieces => (c :: piece) :: pieces
        | [] => [[c]]
        end
  end.

(** The [onload] handler of [toBase64], for the data URL that the reader
    holds: [result.split(',')[1]] and [result.split(';')[0].split(':')[1]],
    each [undefined] when the piece does not exist. *)
Definition toBase64_onload (result : jsstring)
  : option jsstring * option jsstring :=
  (split 44 result !! 1,
   split 59 result !! 0 ≫= fun head => split 58 head !! 1).

(** ** What [App] renders *)

(** [v && ...] for a text that may be [null]: shown when it is not empty. *)
Definition truthyText (v : option jsstring) : option jsstring :=
  match v with
  | Some s => if jseq s [] then None else Some s
  | None => None
  end.

(** The square of one hairstyle in the result grid: the spinner, the error
    box and the image, each drawn or not. *)
Record Card := {
  card_spinner : bool;
  card_error : option jsstring;
  card_image : option jsstring
}.

(** [result = generatedImages[style.name]] and the three conditional
    blocks [result?.loading], [result?.error], [result?.url]. *)
Definition renderCard (s : App) (style : HairstyleSuggestion) : Card :=
  let result := generatedImages s !! name style in
  {| card_spinner := from_option loading false result;
     card_error := result ≫= fun e => truthyText (entry_error e);
     card_image := result ≫= fun e => truthyText (entry_url e) |}.

(** [analysisResult ? renderPostAnalysisView() : renderPreAnalysisView()]. *)
Definition rendersPostAnalysisView (s : App) : bool :=
  match analysisResult s with
  | Some _ => true
  | None => false
  end.

Definition isIMAGE_UPLOADED (a : AppState) : bool :=
  match a with
  | IMAGE_UPLOADED => true
  | _ => false
  end.

(** The analyse button: in the first view, when [appState] is
    IMAGE_UPLOADED. *)
Definition showsAnalyzeButton (s : App) : bool :=
  negb (rendersPostAnalysisView s) && isIMAGE_UPLOADED (appState s).


(** ** Notions used in the statements about the orchestrator *)

(** The three kinds of entry the handlers write: still loading, an image, or
    an error text that is not empty. *)
Definition entryShape (e : GeneratedImageEntry) : Prop :=
  e = loadingEntry
  \/ (exists u, e = {| entry_url := Some u; entry_error := None;
                       loading := false |})
  \/ (exists m, m <> []
                /\ e = {| entry_url := None; entry_error := Some m;
                          loading := false |}).

Definition hasPendingAnalysis (w : World) : Prop :=
  exists i args, analysisCalls w !! i = Some (Some args).

(** What holds of every world the events can lead to. *)
Record consistent (w : World) : Prop := {
  generating_ready :
    appState (component w) = GENERATING ->
    is_Some (originalImage (component w))
    /\ is_Some (analysisResult (component w))
    /\ is_Some (haircutPreference (component w));
  analyzing_ready :
    appState (component w) = ANALYZING ->
    is_Some (originalImage (component w)) /\ hasPendingAnalysis w;
  uploaded_ready :
    appState (component w) = IMAGE_UPLOADED ->
    is_Some (originalImage (component w));
  error_present :
    appState (component w) = ERROR ->
    exists m, error (component w) = Some m /\ m <> [];
  initial_cleared :
    appState (component w) = INITIAL ->
    originalImage (component w) = None
    /\ analysisResult (component w) = None
    /\ haircutPreference (component w) = None
    /\ error (component w) = None;
  preference_ready :
    is_Some (haircutPreference (component w)) ->
    is_Some (originalImage (component w))
    /\ is_Some (analysisResult (component w));
  entries_shaped :
    map_Forall (fun _ e => entryShape e) (generatedImages (component w))
}.

(** Generation calls settling, of any batches and in any order: each element
    names the batch, the place of the call in it, and the outcome. *)
Definition settlements (gens : list (nat * nat * settled GeneratedImage))
  : list Event :=
  map (fun g => GenerationSettled g.1.1 g.1.2 g.2) gens.

(** The call in flight at place [i] of batch [b]. *)
Definition callInFlight (w : World) (b i : nat) : option Call.t :=
  match generationBatches w !! b with
  | Some batch =>
      match batch !! i with
      | Some (Some call) => Some call
      | _ => None
      end
  | None => None
  end.


(** After the reset a new photo is read and analysed, while the three calls
    of the first run are still in flight; [secondRunWorld] is this world
    with the preference Sedang selected. *)
Definition reanalyzedWorld : World :=
  run resetWorld
    [ FileChosen; FileRead 1 (Some sampleImage);
      AnalyzeClick; AnalysisSettled 1 (Fulfilled otherAnalysis) ].

(** The three calls of the first run settle during the second run. *)
Definition staleJoinWorld : World :=
  run secondRunWorld
    (settleEvents 0 [ (0, Fulfilled sampleResult);
                      (1, Fulfilled sampleResult);
                      (2, Fulfilled sampleResult) ]).

(** Then another preference is selected, while the call of the second run
    is still in flight. *)
Definition thirdRunWorld : World :=
  dispatch staleJoinWorld (PreferenceSelect (js "Pendek")).

(** The texts the loop of [generateHairstyleImage] takes as caption: those
    of the parts without inline data that are not empty. *)
Definition captionTexts (parts : list GenAI.Part) : list jsstring :=
  omap (fun part =>
          match GenAI.inlineData part with
          | Some _ => None
          | None => truthyText (GenAI.text part)
          end) parts.

Definition defaultCaption : jsstring := js "Ini dia tampilan baru Anda!".

(** What a card can look like: empty, the spinner alone, an error text
    alone, or an image alone. *)
Inductive cardShape : Card -> Prop :=
| card_empty :
    cardShape {| card_spinner := false; card_error := None; card_image := None |}
| card_loading :
    cardShape {| card_spinner := true; card_error := None; card_image := None |}
| card_failed m :
    m <> [] ->
    cardShape {| card_spinner := false; card_error := Some m;
                 card_image := None |}
| card_done u :
    u <> [] ->
    cardShape {| card_spinner := false; card_error := None;
                 card_image := Some u |}.


(** The events that lead to [analyzedWorld] and on to [generatingWorld]. *)
Definition analyzedEvents : list Event :=
  [ FileChosen; FileRead 0 (Some sampleImage);
    AnalyzeClick; AnalysisSettled 0 (Fulfilled sampleAnalysis) ].

Definition generatingEvents : list Event :=
  analyzedEvents ++ [PreferenceSelect (js "Pendek")].

(** The sample run with two of its three calls settled. *)
Definition twoSettledWorld : World :=
  run generatingWorld
    (settleEvents 0 [ (2, Fulfilled sampleResult);
                      (0, Rejected (BlockedRequestError (js "SAFETY"))) ]).

(** An analysis accepted although its hairstyles are no array. *)
Definition oddHairstylesText : jsstring :=
  dq (js "{'faceShape':'Oval','hairstyles':'none','note':1}").

(** A response whose first candidate holds a text on the image part, a
    caption, and an empty text. *)
Definition captionedResponse : GenAI.GenerateContentResponse :=
  {| GenAI.promptFeedback := Some {| GenAI.blockReason := Some [] |};
     GenAI.candidates :=
       Some [ candidateOf
                [ textPart (js "Gaya bob");
                  {| GenAI.inlineData :=
                       Some {| GenAI.data := Some (js "AAAA");
                               GenAI.mimeType := Some (js "image/png") |};
                     GenAI.text := Some (js "diabaikan") |};
                  textPart [] ] ] |}.

(** The template literal [prompt] of the second copy of the service file. *)
Definition prompt_secondCopy
  (hairstyleName originalHairLength haircutPreference : jsstring) : jsstring :=
  joinLines [
      js "Anda adalah seorang penata rambut virtual ahli yang berspesialisasi dalam simulasi potong rambut. Tugas Anda adalah menunjukkan bagaimana penampilan seseorang dengan gaya rambut BARU berdasarkan preferensi potongan mereka.";
      [];
      js "**INPUT:**";
      js "1.  **Gaya yang Diminta:** '" ++ hairstyleName ++ js "'";
      js "2.  **Panjang Rambut Asli:** '" ++ originalHairLength ++ js "'";
      js "3.  **Tingkat Potongan yang Diinginkan:** '" ++ haircutPreference ++ js "'";
      [];
      js "**DEFINISI TINGKAT POTONGAN:**";
      js "*   **Rapikan:** " ++ interpolate (lookupDefinition preferenceDefinitions_secondCopy (js "Rapikan"));
      js "*   **Sedang:** " ++ interpolate (lookupDefinition preferenceDefinitions_secondCopy (js "Sedang"));
      js "*   **Pendek:** " ++ interpolate (lookupDefinition preferenceDefinitions_secondCopy (js "Pendek"));
      [];
      js "**ATURAN KRITIS ANDA:**";
      js "1.  **PATUHI TINGKAT POTONGAN:** Prioritas utama Anda adalah menerapkan tingkat potongan '" ++ haircutPreference ++ js "'. Hasil akhir HARUS secara akurat mencerminkan definisi di atas.";
      js "2.  **SESUAIKAN GAYA:** Terapkan gaya '" ++ hairstyleName ++ js "', tetapi modifikasi agar sesuai dengan aturan #1. Misalnya, jika gaya yang diminta adalah 'Layer Panjang' tetapi tingkat potongannya adalah 'Pendek', Anda harus membuat 'Bob Berlayer' atau gaya pendek lain yang terinspirasi dari permintaan asli.";
      js "3.  **HANYA UBAH RAMBUT:** Jaga agar wajah, ekspresi, pakaian, latar belakang, dan pencahayaan tetap SAMA PERSIS dengan gambar asli.";
      js "4.  **REALISTIS:** Hasilnya harus terlihat seperti foto asli yang diedit, bukan gambar buatan AI."
  ].

(** ** Strings *)

Lemma jseq_eq a b : jseq a b = true <-> a = b.
Proof.
  revert b; induction a as [|x a IH]; intros [|y b]; simpl; try easy.
  rewrite andb_true_iff, N.eqb_eq, IH. split.
  - intros [-> ->]; reflexivity.
  - intros [= -> ->]; auto.
Qed.

Lemma jseq_refl a : jseq a a = true.
Proof. apply jseq_eq; reflexivity. Qed.

Lemma jseq_neq a b : jseq a b = false <-> a <> b.
Proof.
  rewrite <- jseq_eq. destruct (jseq a b); split; congruence.
Qed.

Lemma trimStart_blank s : allWhiteSpace s -> trimStart s = [].
Proof.
  induction 1 as [|c s Hc _ IH]; simpl; [reflexivity|]. rewrite Hc; exact IH.
Qed.

Lemma trimStart_app_blank pre s :
  allWhiteSpace pre -> trimStart (pre ++ s) = trimStart s.
Proof.
  induction 1 as [|c pre Hc _ IH]; simpl; [reflexivity|]. rewrite Hc; exact IH.
Qed.

Lemma trimStart_head c s : isWhiteSpace c = false -> trimStart (c :: s) = c :: s.
Proof. intros Hc; simpl; rewrite Hc; reflexivity. Qed.

(** [trimStart] removes a blank prefix and nothing else. *)
Lemma trimStart_split s :
  exists pre, s = pre ++ trimStart s /\ allWhiteSpace pre.
Proof.
  induction s as [|c s [pre [Hs Hpre]]]; simpl.
  - exists []; split; [reflexivity | constructor].
  - destruct (isWhiteSpace c) eqn:Hc.
    + exists (c :: pre); split; [simpl; congruence | constructor; assumption].
    + exists []; split; [reflexivity | constructor].
Qed.

Lemma trimStart_nil s : trimStart s = [] -> allWhiteSpace s.
Proof.
  destruct (trimStart_split s) as [pre [Hs Hpre]]. intros E.
  rewrite E, app_nil_r in Hs; subst; assumption.
Qed.

Lemma allWhiteSpace_rev s : allWhiteSpace s -> allWhiteSpace (rev s).
Proof.
  apply List.Forall_rev.
Qed.

Lemma trimEnd_split s :
  exists post, s = trimEnd s ++ post /\ allWhiteSpace post.
Proof.
  unfold trimEnd. destruct (trimStart_split (rev s)) as [pre [Hs Hpre]].
  exists (rev pre); split.
  - rewrite <- rev_app_distr, <- Hs, rev_involutive; reflexivity.
  - apply allWhiteSpace_rev; assumption.
Qed.

(** A text is its trimmed form between two blank margins. *)
Lemma trim_split s :
  exists pre post,
    s = pre ++ trim s ++ post /\ allWhiteSpace pre /\ allWhiteSpace post.
Proof.
  destruct (trimStart_split s) as [pre [Hs Hpre]].
  destruct (trimEnd_split (trimStart s)) as [post [Ht Hpost]].
  exists pre, post; unfold trim; split; [congruence | auto].
Qed.

Lemma trim_blank s : allWhiteSpace s -> trim s = [].
Proof.
  intros Hs; unfold trim; rewrite (trimStart_blank s Hs); reflexivity.
Qed.

(** Settle every comparison of code units that arithmetic decides. *)
Ltac decide_units :=
  repeat match goal with
         | |- context [(?x =? ?y)%N] =>
             first [ rewrite (proj2 (N.eqb_neq x y)) by lia
                   | rewrite (proj2 (N.eqb_eq x y)) by lia ]
         | |- context [(?x <=? ?y)%N] =>
             first [ rewrite (proj2 (N.leb_le x y)) by lia
                   | rewrite (proj2 (N.leb_gt x y)) by lia ]
         end.

Lemma letter_not_space l c :
  (97 <= l <= 122)%N -> letter l c -> isWhiteSpace c = false.
Proof.
  intros Hl Hc. assert (65 <= c <= 122)%N by (destruct Hc; lia).
  unfold isWhiteSpace. decide_units. reflexivity.
Qed.

Lemma letter_lower l c :
  (97 <= l <= 122)%N -> letter l c -> lowerUnit c = l.
Proof.
  intros Hl [-> | Hc]; unfold lowerUnit; decide_units; simpl; lia.
Qed.

(** Trimming the word null, whatever surrounds it, leaves the word. *)
Lemma trim_nullWord pre w post :
  allWhiteSpace pre -> nullWord w -> allWhiteSpace post ->
  trim (pre ++ w ++ post) = w.
Proof.
  intros Hpre (a & b & c & d & -> & Ha & Hb & Hc & Hd) Hpost.
  unfold trim. rewrite trimStart_app_blank by assumption.
  simpl app. rewrite trimStart_head by (eapply letter_not_space; [|exact Ha]; lia).
  unfold trimEnd.
  change (a :: b :: c :: d :: post) with ([a; b; c] ++ d :: post).
  rewrite rev_app_distr. simpl rev at 1. rewrite <- app_assoc.
  rewrite trimStart_app_blank by (apply allWhiteSpace_rev; assumption).
  simpl app. rewrite trimStart_head by (eapply letter_not_space; [|exact Hd]; lia).
  reflexivity.
Qed.

Lemma toLowerCase_nullWord w : nullWord w -> toLowerCase w = js "null".
Proof.
  intros (a & b & c & d & -> & Ha & Hb & Hc & Hd). simpl.
  rewrite (letter_lower 110 a), (letter_lower 117 b),
    (letter_lower 108 c), (letter_lower 108 d) by (assumption || lia).
  reflexivity.
Qed.

Lemma isEmptyResponse_emptyText t : emptyText t -> isEmptyResponse t = true.
Proof.
  intros [|s Hs|pre w post Hpre Hw Hpost]; simpl.
  - reflexivity.
  - rewrite (trim_blank s Hs); simpl. destruct (jseq s []); reflexivity.
  - rewrite (trim_nullWord pre w post Hpre Hw Hpost).
    rewrite (toLowerCase_nullWord w Hw), jseq_refl. apply orb_true_r.
Qed.

(** ** The fuel of [JSON_parse] *)

Lemma skipSpace_length s : length (skipSpace s) <= length s.
Proof.
  induction s as [|c s IH]; simpl; [lia|].
  destruct (isJsonSpace c); simpl; lia.
Qed.

Lemma parseChars_length s : forall acc str r,
  parseChars s acc = Some (str, r) -> length r < length s.
Proof.
  induction s as [s IH] using (induction_ltof1 _ (@length N)).
  unfold ltof in IH. intros acc str r. destruct s as [|c s]; [discriminate|].
  simpl. destruct (c =? 34)%N.
  { intros [= _ <-]. lia. }
  destruct (c =? 92)%N.
  { destruct s as [|e s1]; [discriminate|].
    destruct (e =? 117)%N.
    - destruct s1 as [|h1 [|h2 [|h3 [|h4 s2]]]]; try discriminate.
      destruct (hexValue h1), (hexValue h2), (hexValue h3), (hexValue h4);
        try discriminate.
      intros E. apply IH in E; simpl in *; lia.
    - destruct (simpleEscape e); [|discriminate].
      intros E. apply IH in E; simpl in *; lia. }
  destruct (c <? 32)%N; [discriminate|].
  intros E. apply IH in E; simpl in *; lia.
Qed.

Lemma takeDigits_length s : forall acc k m k' r,
  takeDigits s acc k = (m, k', r) -> length r <= length s.
Proof.
  induction s as [|c s IH]; intros acc k m k' r; simpl.
  - intros [= _ _ <-]. simpl; lia.
  - destruct (isDigit c).
    + intros E. apply IH in E. lia.
    + intros [= _ _ <-]. simpl; lia.
Qed.

Lemma parseNumber_length s n r :
  parseNumber s = Some (n, r) -> length r < length s.
Proof.
  unfold parseNumber.
  set (p := match s with
            | c :: r0 => if (c =? 45)%N then (true, r0) else (false, s)
            | [] => (false, s)
            end).
  assert (Hp : length (snd p) <= length s).
  { subst p. destruct s as [|c s0]; simpl; [lia|].
    destruct (c =? 45)%N; simpl; lia. }
  destruct p as [neg s1]. simpl in Hp.
  destruct (parseInt s1) as [[m s2]|] eqn:Ei; [|discriminate]. simpl.
  assert (H2 : length s2 < length s1).
  { unfold parseInt in Ei. destruct s1 as [|c s1']; [discriminate|].
    destruct (c =? 48)%N.
    - injection Ei as _ <-. simpl; lia.
    - destruct (isDigit c) eqn:Hd; [|discriminate].
      simpl in Ei. rewrite Hd in Ei.
      destruct (takeDigits s1' _ _) as [[m0 k0] r0] eqn:Et.
      injection Ei as _ <-. apply takeDigits_length in Et. simpl; lia. }
  destruct (parseFrac m s2) as [[[m' k] s3]|] eqn:Ef; [|discriminate]. simpl.
  assert (H3 : length s3 <= length s2).
  { unfold parseFrac in Ef. destruct s2 as [|c s2']; [injection Ef as _ _ <-; simpl; lia|].
    destruct (c =? 46)%N.
    - destruct (takeDigits s2' m 0) as [[m0 k0] r0] eqn:Et.
      destruct k0; [discriminate|]. injection Ef as _ _ <-.
      apply takeDigits_length in Et. simpl; lia.
    - injection Ef as _ _ <-. lia. }
  destruct (parseExp s3) as [[e s4]|] eqn:Ee; [|discriminate]. simpl.
  assert (H4 : length s4 <= length s3).
  { unfold parseExp in Ee. destruct s3 as [|c s3']; [injection Ee as _ <-; simpl; lia|].
    destruct ((c =? 101)%N || (c =? 69)%N).
    - set (q := match s3' with
                | g :: r' => if (g =? 43)%N then (false, r')
                             else if (g =? 45)%N then (true, r') else (false, s3')
                | [] => (false, s3')
                end) in Ee.
      assert (Hq : length (snd q) <= length s3').
      { subst q. destruct s3' as [|g r']; simpl; [lia|].
        destruct (g =? 43)%N; simpl; [lia|]. destruct (g =? 45)%N; simpl; lia. }
      destruct q as [neg' r1]. simpl in Hq.
      destruct (takeDigits r1 0 0) as [[e0 k0] r2] eqn:Et.
      destruct k0; [discriminate|]. injection Ee as _ <-.
      apply takeDigits_length in Et. simpl; lia.
    - injection Ee as _ <-. lia. }
  intros [= _ <-]. lia.
Qed.

Lemma stripPrefix_length p s r :
  stripPrefix p s = Some r -> p <> [] -> length r < length s.
Proof.
  unfold stripPrefix. destruct (startsWith s p) eqn:E; [|discriminate].
  intros [= <-] Hp. rewrite length_drop.
  destruct p as [|x p]; [congruence|]. destruct s as [|y s]; [discriminate|].
  simpl. lia.
Qed.

Ltac rewrite_tests :=
  repeat match goal with
         | H : (_ =? _)%N = _ |- _ => rewrite H
         end.

(** A value that is decoded leaves less text than it found, and is decoded
    alike with any fuel that is at least the number of code units used. *)
Lemma parse_fuel F :
  (forall s v r, parseValue F s = Some (v, r) ->
     length r < length s
     /\ forall F', length s - length r <= F' -> parseValue F' s = Some (v, r))
  /\ (forall s acc v r, parseElements F s acc = Some (v, r) ->
        length r < length s
        /\ forall F', length s - length r <= F' ->
                      parseElements F' s acc = Some (v, r))
  /\ (forall s acc v r, parseMembers F s acc = Some (v, r) ->
        length r < length s
        /\ forall F', length s - length r <= F' ->
                      parseMembers F' s acc = Some (v, r)).
Proof.
  induction F as [|f (IHv & IHe & IHm)]; [repeat split; discriminate|].
  split; [|split].
  - intros s v r. simpl.
    pose proof (skipSpace_length s) as Hs.
    destruct (skipSpace s) as [|c r0] eqn:Es; [discriminate|]. simpl in Hs.
    destruct (c =? 123)%N eqn:T1.
    { pose proof (skipSpace_length r0) as Hr.
      destruct (skipSpace r0) as [|c' r'] eqn:Er; [discriminate|]. simpl in Hr.
      destruct (c' =? 125)%N eqn:T2.
      - intros [= <- <-]. split; [lia|]. intros [|f'] HF; [lia|].
        simpl. rewrite Es, Er. rewrite_tests. reflexivity.
      - intros E. apply IHm in E as [Hl Hf]. simpl in Hl. split; [lia|].
        intros [|f'] HF; [lia|]. simpl. rewrite Es, Er. rewrite_tests.
        apply Hf. simpl. lia. }
    destruct (c =? 91)%N eqn:T2.
    { pose proof (skipSpace_length r0) as Hr.
      destruct (skipSpace r0) as [|c' r'] eqn:Er; [discriminate|]. simpl in Hr.
      destruct (c' =? 93)%N eqn:T3.
      - intros [= <- <-]. split; [lia|]. intros [|f'] HF; [lia|].
        simpl. rewrite Es, Er. rewrite_tests. reflexivity.
      - intros E. apply IHe in E as [Hl Hf]. simpl in Hl. split; [lia|].
        intros [|f'] HF; [lia|]. simpl. rewrite Es, Er. rewrite_tests.
        apply Hf. simpl. lia. }
    destruct (c =? 34)%N eqn:T3.
    { destruct (parseChars r0 []) as [[str r']|] eqn:Ec; [|discriminate].
      apply parseChars_length in Ec as Hl.
      intros [= <- <-]. split; [lia|]. intros [|f'] HF; [lia|].
      simpl. rewrite Es. rewrite_tests. rewrite Ec. reflexivity. }
    destruct (c =? 116)%N eqn:T4.
    { destruct (stripPrefix _ (c :: r0)) as [r'|] eqn:Ec; [|discriminate].
      apply stripPrefix_length in Ec as Hl; [|discriminate]. simpl in Hl.
      intros [= <- <-]. split; [lia|]. intros [|f'] HF; [lia|].
      simpl. rewrite Es. rewrite_tests. rewrite Ec. reflexivity. }
    destruct (c =? 102)%N eqn:T5.
    { destruct (stripPrefix _ (c :: r0)) as [r'|] eqn:Ec; [|discriminate].
      apply stripPrefix_length in Ec as Hl; [|discriminate]. simpl in Hl.
      intros [= <- <-]. split; [lia|]. intros [|f'] HF; [lia|].
      simpl. rewrite Es. rewrite_tests. rewrite Ec. reflexivity. }
    destruct (c =? 110)%N eqn:T6.
    { destruct (stripPrefix _ (c :: r0)) as [r'|] eqn:Ec; [|discriminate].
      apply stripPrefix_length in Ec as Hl; [|discriminate]. simpl in Hl.
      intros [= <- <-]. split; [lia|]. intros [|f'] HF; [lia|].
      simpl. rewrite Es. rewrite_tests. rewrite Ec. reflexivity. }
    destruct (parseNumber (c :: r0)) as [[n r']|] eqn:Ec; [|discriminate].
    apply parseNumber_length in Ec as Hl. simpl in Hl.
    intros [= <- <-]. split; [lia|]. intros [|f'] HF; [lia|].
    simpl. rewrite Es. rewrite_tests. rewrite Ec. reflexivity.
  - intros s acc v r. simpl.
    destruct (parseValue f s) as [[v0 r0]|] eqn:Ev; [|discriminate].
    apply IHv in Ev as [Hl0 Hf0].
    pose proof (skipSpace_length r0) as Hr.
    destruct (skipSpace r0) as [|c r'] eqn:Er; [discriminate|]. simpl in Hr.
    destruct (c =? 44)%N eqn:T1.
    { intros E. apply IHe in E as [Hl Hf]. split; [lia|].
      intros [|f'] HF; [lia|]. simpl. rewrite (Hf0 f') by lia.
      rewrite Er. rewrite_tests. apply Hf. lia. }
    destruct (c =? 93)%N eqn:T2; [|discriminate].
    intros [= <- <-]. split; [lia|]. intros [|f'] HF; [lia|].
    simpl. rewrite (Hf0 f') by lia. rewrite Er. rewrite_tests. reflexivity.
  - intros s acc v r. simpl.
    pose proof (skipSpace_length s) as Hs.
    destruct (skipSpace s) as [|q r0] eqn:Es; [discriminate|]. simpl in Hs.
    destruct (q =? 34)%N eqn:T1; [|discriminate].
    destruct (parseChars r0 []) as [[k r1]|] eqn:Ec; [|discriminate].
    apply parseChars_length in Ec as Hl1.
    pose proof (skipSpace_length r1) as Hr1.
    destruct (skipSpace r1) as [|c1 r2] eqn:Er1; [discriminate|]. simpl in Hr1.
    destruct (c1 =? 58)%N eqn:T2; [|discriminate].
    destruct (parseValue f r2) as [[v0 r3]|] eqn:Ev; [|discriminate].
    apply IHv in Ev as [Hl3 Hf3].
    pose proof (skipSpace_length r3) as Hr3.
    destruct (skipSpace r3) as [|c3 r4] eqn:Er3; [discriminate|]. simpl in Hr3.
    destruct (c3 =? 44)%N eqn:T3.
    { intros E. apply IHm in E as [Hl Hf]. split; [lia|].
      intros [|f'] HF; [lia|]. simpl. rewrite Es. rewrite_tests.
      rewrite Ec, Er1. rewrite_tests. rewrite (Hf3 f') by lia.
      rewrite Er3. rewrite_tests. apply Hf. lia. }
    destruct (c3 =? 125)%N eqn:T4; [|discriminate].
    intros [= <- <-]. split; [lia|]. intros [|f'] HF; [lia|].
    simpl. rewrite Es. rewrite_tests. rewrite Ec, Er1. rewrite_tests.
    rewrite (Hf3 f') by lia. rewrite Er3. rewrite_tests. reflexivity.
Qed.

(** The fuel of [JSON_parse] never cuts a decoding short: a text that some
    amount of fuel decodes is decoded by [JSON_parse]. *)
Lemma JSON_parse_fuel F s v r :
  parseValue F s = Some (v, r) -> skipSpace r = [] -> JSON_parse s = Some v.
Proof.
  intros Hp Hr. unfold JSON_parse.
  destruct (parse_fuel F) as (Hv & _ & _).
  destruct (Hv s v r Hp) as [_ Hf]. rewrite (Hf (2 * length s + 2)) by lia.
  rewrite Hr. reflexivity.
Qed.

(** ** [JSON.parse] on the texts of the empty-response test *)

Lemma skipSpace_idem s : skipSpace (skipSpace s) = skipSpace s.
Proof.
  induction s as [|c s IH]; simpl; [reflexivity|].
  destruct (isJsonSpace c) eqn:Hc; [exact IH | simpl; rewrite Hc; reflexivity].
Qed.

Lemma parseValue_skipSpace fuel s :
  parseValue fuel (skipSpace s) = parseValue fuel s.
Proof.
  destruct fuel; [reflexivity|]. simpl. rewrite skipSpace_idem. reflexivity.
Qed.

(** Past a blank prefix, the decoder either reaches what follows or stops
    at white space that JSON does not know. *)
Lemma skipSpace_blank_prefix pre t :
  allWhiteSpace pre ->
  skipSpace (pre ++ t) = skipSpace t
  \/ exists c r, skipSpace (pre ++ t) = c :: r
                 /\ isWhiteSpace c = true /\ isJsonSpace c = false.
Proof.
  induction 1 as [|c pre Hc _ IH]; simpl; [left; reflexivity|].
  destruct (isJsonSpace c) eqn:Hj; [exact IH|].
  right; exists c, (pre ++ t); auto.
Qed.

Lemma parseValue_foreign_space fuel c r :
  isWhiteSpace c = true -> isJsonSpace c = false ->
  parseValue (S fuel) (c :: r) = None.
Proof.
  intros Hw Hj. simpl. rewrite Hj.
  unfold isWhiteSpace in Hw. unfold isJsonSpace in Hj.
  rewrite !orb_true_iff, !andb_true_iff, !N.eqb_eq, !N.leb_le in Hw.
  rewrite !orb_false_iff, !N.eqb_neq in Hj.
  assert (Hd : isDigit c = false).
  { unfold isDigit. destruct (N.leb_spec 48 c); [|reflexivity].
    decide_units. reflexivity. }
  unfold parseNumber, parseInt. decide_units. rewrite Hd. reflexivity.
Qed.

Lemma parseValue_nil fuel : parseValue fuel [] = None.
Proof. destruct fuel; reflexivity. Qed.

Lemma parseValue_capital_N fuel r : parseValue (S fuel) (78%N :: r) = None.
Proof. reflexivity. Qed.

Lemma parseValue_small_n fuel r :
  parseValue (S fuel) (110%N :: r) = None
  \/ exists r', parseValue (S fuel) (110%N :: r) = Some (JNull, r').
Proof.
  simpl. destruct (stripPrefix _ _); simpl; eauto.
Qed.

Lemma JSON_parse_blank s : allWhiteSpace s -> JSON_parse s = None.
Proof.
  intros Hs. unfold JSON_parse.
  replace (2 * length s + 2) with (S (2 * length s + 1)) by lia.
  rewrite <- parseValue_skipSpace.
  destruct (skipSpace_blank_prefix s [] Hs) as [E | (c & r & E & Hw & Hj)];
    rewrite app_nil_r in E; rewrite E.
  - reflexivity.
  - rewrite parseValue_foreign_space by assumption. reflexivity.
Qed.

Lemma lowerUnit_n a : lowerUnit a = 110%N -> a = 110%N \/ a = 78%N.
Proof.
  unfold lowerUnit.
  destruct ((65 <=? a)%N && (a <=? 90)%N); intros; lia.
Qed.

(** A text whose trimmed, lower-cased form is null decodes to [null] or not
    at all. *)
Lemma JSON_parse_null_like s :
  toLowerCase (trim s) = js "null" ->
  JSON_parse s = None \/ JSON_parse s = Some JNull.
Proof.
  intros Hl.
  destruct (trim_split s) as (pre & post & Hs & Hpre & Hpost).
  destruct (trim s) as [|a w] eqn:Ht; [discriminate|].
  injection Hl as Ha _.
  unfold JSON_parse.
  replace (2 * length s + 2) with (S (2 * length s + 1)) by lia.
  rewrite <- (parseValue_skipSpace _ s).
  assert (Hk : skipSpace s = skipSpace (pre ++ (a :: w) ++ post)) by congruence.
  rewrite Hk.
  destruct (skipSpace_blank_prefix pre ((a :: w) ++ post) Hpre)
    as [E | (c & r & E & Hw & Hj)]; rewrite E.
  - rewrite parseValue_skipSpace.
    destruct (lowerUnit_n a Ha) as [-> | ->]; simpl app.
    + destruct (parseValue_small_n (2 * length s + 1) (w ++ post))
        as [-> | [r' ->]]; [left; reflexivity|].
      destruct (skipSpace r'); auto.
    + rewrite parseValue_capital_N. left; reflexivity.
  - rewrite parseValue_foreign_space by assumption. left; reflexivity.
Qed.

(** Whatever the empty-response test catches decodes to [null] or fails to
    decode. *)
Lemma JSON_parse_empty_response s :
  isEmptyResponse (Some s) = true ->
  JSON_parse s = None \/ JSON_parse s = Some JNull.
Proof.
  simpl. rewrite !orb_true_iff, !jseq_eq. intros [[-> | Ht] | Hl].
  - left; reflexivity.
  - left. apply JSON_parse_blank.
    destruct (trim_split s) as (pre & post & Hs & Hpre & Hpost).
    rewrite Ht in Hs. rewrite Hs. apply Forall_app; auto.
  - apply JSON_parse_null_like; assumption.
Qed.

(** ** [analyzeFaceShape] *)

Section AnalysisProperties.
Context `{Engine}.

Lemma carriesMarker_validation :
  carriesMarker EmptyResponseError = true
  /\ carriesMarker MalformedResponseError = true.
Proof. split; reflexivity. Qed.

Lemma analyzeFaceShape_catch_marker e :
  analyzeFaceShape_catch e = if carriesMarker e then e else AnalysisFailedError.
Proof. destruct e; reflexivity. Qed.

(** The rejections of [analyzeFaceShape] are Error objects. *)
Lemma analyzeFaceShape_rejects_Error response e :
  analyzeFaceShape response = Rejected e -> exists n m, e = ErrorObject n m.
Proof.
  unfold analyzeFaceShape.
  destruct (analyzeFaceShape_try response) as [v | e0]; [discriminate|].
  intros [= <-]. rewrite analyzeFaceShape_catch_marker.
  destruct e0 as [n m|]; simpl.
  - destruct (includes m _); unfold AnalysisFailedError, newError; eauto.
  - unfold AnalysisFailedError, newError; eauto.
Qed.

(** C3.  When the text of the response is absent, empty, made of white space
    only, or the word null in any letter case (with or without white space
    around it), [analyzeFaceShape] rejects with the empty-response error and
    returns no value. *)
Theorem analyzeFaceShape_empty_response (text : option jsstring) :
  emptyText text ->
  analyzeFaceShape (Fulfilled text) = Rejected EmptyResponseError
  /\ forall v, analyzeFaceShape (Fulfilled text) <> Fulfilled v.
Proof.
  intros Ht.
  assert (E : analyzeFaceShape (Fulfilled text) = Rejected EmptyResponseError).
  { unfold analyzeFaceShape, analyzeFaceShape_try.
    rewrite (isEmptyResponse_emptyText text Ht). reflexivity. }
  split; [exact E | intros v; rewrite E; discriminate].
Qed.

Lemma isInvalidStructure_lacking v :
  getField v (js "faceShape") = None \/ getField v (js "hairstyles") = None ->
  isInvalidStructure v = true.
Proof.
  unfold isInvalidStructure. intros [-> | ->]; simpl.
  - rewrite orb_true_r. reflexivity.
  - apply orb_true_r.
Qed.

(** C4.  When the text of the response decodes to a value other than [null]
    from which the field faceShape or the field hairstyles is missing,
    [analyzeFaceShape] rejects with the malformed-response error.  (The text
    that decodes to [null] is the empty response of C3.) *)
Theorem analyzeFaceShape_malformed_response (s : jsstring) (v : json) :
  JSON_parse s = Some v ->
  v <> JNull ->
  getField v (js "faceShape") = None \/ getField v (js "hairstyles") = None ->
  analyzeFaceShape (Fulfilled (Some s)) = Rejected MalformedResponseError.
Proof.
  intros Hp Hv Hf.
  assert (He : isEmptyResponse (Some s) = false).
  { destruct (isEmptyResponse (Some s)) eqn:E; [|reflexivity].
    destruct (JSON_parse_empty_response s E) as [Hn | Hn]; congruence. }
  unfold analyzeFaceShape, analyzeFaceShape_try.
  rewrite He, Hp, (isInvalidStructure_lacking v Hf). reflexivity.
Qed.

(** A rejected service call is what the [try] block throws. *)
Lemma analyzeFaceShape_try_transport e :
  analyzeFaceShape_try (Rejected e) = Rejected e.
Proof. reflexivity. Qed.

(** A text that does not decode makes the [try] block throw the
    SyntaxError of [JSON.parse]. *)
Lemma analyzeFaceShape_try_decoding s :
  isEmptyResponse (Some s) = false -> JSON_parse s = None ->
  analyzeFaceShape_try (Fulfilled (Some s))
  = Rejected (ErrorObject (js "SyntaxError") (syntaxErrorMessage s)).
Proof.
  intros He Hp. unfold analyzeFaceShape_try. rewrite He, Hp. reflexivity.
Qed.

(** C5, as amended.  Whatever the [try] block throws, [analyzeFaceShape]
    rejects with the generic analysis error unless the thrown value is an
    Error object whose message contains the text AI mengembalikan; such an
    error, and so each of the two validation errors, is passed on
    unchanged. *)
Theorem analyzeFaceShape_failure_surfaced response e :
  analyzeFaceShape_try response = Rejected e ->
  (carriesMarker e = false ->
   analyzeFaceShape response = Rejected AnalysisFailedError)
  /\ (carriesMarker e = true -> analyzeFaceShape response = Rejected e)
  /\ carriesMarker EmptyResponseError = true
  /\ carriesMarker MalformedResponseError = true.
Proof.
  intros Ht. unfold analyzeFaceShape. rewrite Ht, analyzeFaceShape_catch_marker.
  repeat split; try reflexivity; intros ->; reflexivity.
Qed.

(** C6, as amended.  A value returned by [analyzeFaceShape] is an object
    whose members faceShape and hairstyles are present and truthy; the
    array of hairstyles, being truthy also when empty, may have no
    element. *)
Theorem analyzeFaceShape_success_shape response v :
  analyzeFaceShape response = Fulfilled v ->
  exists members f h,
    v = JObject members
    /\ lastMember members (js "faceShape") = Some f /\ truthy f = true
    /\ lastMember members (js "hairstyles") = Some h /\ truthy h = true.
Proof.
  unfold analyzeFaceShape, analyzeFaceShape_try.
  destruct response as [text | e]; [|discriminate].
  destruct (if isEmptyResponse text then None else text) as [s|]; [|discriminate].
  destruct (JSON_parse s) as [result|]; [|discriminate].
  destruct (isInvalidStructure result) eqn:Hi; [discriminate|].
  intros [= <-]. unfold isInvalidStructure in Hi.
  rewrite !orb_false_iff, !negb_false_iff in Hi.
  destruct Hi as [[[Ht Ho] Hf] Hh].
  destruct result as [| | | |items|members]; try discriminate.
  unfold getField, falsy in Hf, Hh.
  destruct (lastMember members (js "faceShape")) as [f|] eqn:Ef; [|discriminate].
  destruct (lastMember members (js "hairstyles")) as [h|] eqn:Eh; [|discriminate].
  rewrite negb_false_iff in Hf, Hh.
  exists members, f, h. auto.
Qed.

End AnalysisProperties.

(** C3 at the text [" NuLL "]. *)
Lemma analyzeFaceShape_empty_response_witness :
  emptyText (Some (js " " ++ js "NuLL" ++ js " "))
  /\ @analyzeFaceShape plainEngine (Fulfilled (Some (js " NuLL ")))
     = Rejected EmptyResponseError.
Proof.
  assert (Ht : emptyText (Some (js " " ++ js "NuLL" ++ js " "))).
  { apply emptyText_null.
    - repeat constructor.
    - exists 78%N, 117%N, 76%N, 76%N. unfold letter. repeat split; auto.
    - repeat constructor. }
  split; [exact Ht|].
  exact (proj1 (@analyzeFaceShape_empty_response plainEngine _ Ht)).
Defined.

(** C4 at an object without faceShape. *)
Lemma analyzeFaceShape_malformed_response_witness :
  @analyzeFaceShape plainEngine (Fulfilled (Some noFaceShapeText))
  = Rejected MalformedResponseError.
Proof.
  eapply (@analyzeFaceShape_malformed_response plainEngine).
  - vm_compute. reflexivity.
  - discriminate.
  - left. reflexivity.
Defined.

(** C5, the counterexample: a service error that is neither validation
    error is passed on as it is, not as the generic analysis error. *)
Lemma analyzeFaceShape_marked_error_not_wrapped :
  markedServiceError <> EmptyResponseError
  /\ markedServiceError <> MalformedResponseError
  /\ @analyzeFaceShape plainEngine (Rejected markedServiceError)
     = Rejected markedServiceError
  /\ @analyzeFaceShape plainEngine (Rejected markedServiceError)
     <> Rejected AnalysisFailedError.
Proof.
  split; [discriminate|]. split; [discriminate|].
  split; [reflexivity | discriminate].
Qed.

(** C5 as amended, at a service error without the marked text. *)
Lemma analyzeFaceShape_failure_surfaced_witness :
  @analyzeFaceShape plainEngine (Rejected plainServiceError)
  = Rejected AnalysisFailedError.
Proof.
  apply (proj1 (@analyzeFaceShape_failure_surfaced plainEngine
                  (Rejected plainServiceError) plainServiceError eq_refl)).
  reflexivity.
Defined.

(** C6, the counterexample: a response with an empty array of hairstyles is
    returned as a success. *)
Lemma analyzeFaceShape_returns_no_hairstyles :
  @analyzeFaceShape plainEngine (Fulfilled (Some noHairstylesText))
  = Fulfilled noHairstylesValue
  /\ getField noHairstylesValue (js "hairstyles") = Some (JArray []).
Proof. split; vm_compute; reflexivity. Qed.

(** C6 as amended, at the same response. *)
Lemma analyzeFaceShape_success_shape_witness :
  exists members f h,
    noHairstylesValue = JObject members
    /\ lastMember members (js "faceShape") = Some f /\ truthy f = true
    /\ lastMember members (js "hairstyles") = Some h /\ truthy h = true.
Proof.
  apply (@analyzeFaceShape_success_shape plainEngine
           (Fulfilled (Some noHairstylesText))).
  vm_compute. reflexivity.
Defined.

(** A well-formed response is returned as decoded; a text that is no JSON
    ends in the generic analysis error. *)
Example analyzeFaceShape_sample :
  (exists members,
      @analyzeFaceShape plainEngine (Fulfilled (Some sampleAnalysisText))
      = Fulfilled (JObject members)
      /\ lastMember members (js "faceShape") = Some (JString (js "Oval"))
      /\ (exists styles,
            lastMember members (js "hairstyles") = Some (JArray styles)
            /\ length styles = 3))
  /\ @analyzeFaceShape plainEngine (Fulfilled (Some (js "Maaf, tidak bisa.")))
     = Rejected AnalysisFailedError.
Proof.
  split; [|vm_compute; reflexivity].
  eexists. split; [vm_compute; reflexivity|].
  split; [vm_compute; reflexivity|].
  eexists. split; [vm_compute; reflexivity | reflexivity].
Qed.

(** ** [includes] *)

Lemma startsWith_app p t : startsWith (p ++ t) p = true.
Proof.
  induction p as [|x p IH]; simpl; [destruct t; reflexivity|].
  rewrite N.eqb_refl. exact IH.
Qed.

Lemma startsWith_app_r s t p :
  startsWith s p = true -> startsWith (s ++ t) p = true.
Proof.
  revert s; induction p as [|x p IH]; intros s.
  - intros _. destruct (s ++ t); reflexivity.
  - destruct s as [|y s]; simpl; [discriminate|].
    rewrite !andb_true_iff. intros [? ?]; auto.
Qed.

Lemma includes_startsWith s p : startsWith s p = true -> includes s p = true.
Proof. intros E. destruct s; simpl in *; rewrite E; reflexivity. Qed.

Lemma includes_app_l a s p : includes s p = true -> includes (a ++ s) p = true.
Proof.
  intros E. induction a as [|x a IH]; simpl; [exact E|].
  rewrite IH. apply orb_true_r.
Qed.

Lemma includes_app_r s t p : includes s p = true -> includes (s ++ t) p = true.
Proof.
  induction s as [|x s IH].
  - simpl. rewrite orb_false_r. destruct p; [|discriminate].
    intros _. apply includes_startsWith. destruct t; reflexivity.
  - simpl. rewrite !orb_true_iff. intros [E | E].
    + left. apply (startsWith_app_r (x :: s) t p E).
    + right. auto.
Qed.

Lemma includes_middle a p b : includes (a ++ p ++ b) p = true.
Proof. apply includes_app_l, includes_startsWith, startsWith_app. Qed.

(** A text found in one line is found in the joined lines. *)
Lemma includes_joinLines ls l p :
  In l ls -> includes l p = true -> includes (joinLines ls) p = true.
Proof.
  intros Hin Hl. destruct ls as [|l0 r]; [destruct Hin|].
  simpl. destruct Hin as [-> | Hin].
  - apply includes_app_r; assumption.
  - apply includes_app_l. induction r as [|x r IH]; [destruct Hin|].
    simpl. destruct Hin as [-> | Hin].
    + apply (includes_app_l [10%N]), includes_app_r; assumption.
    + apply (includes_app_l (10%N :: x)). auto.
Qed.

(** ** [generateHairstyleImage] *)

Lemma dataUrl_nonempty blob : jseq (dataUrl blob) [] = false.
Proof. reflexivity. Qed.

(** The data URL written out, with the word undefined for an absent field. *)
Lemma dataUrl_fields blob :
  dataUrl blob
  = js "data:" ++ default (js "undefined") (GenAI.mimeType blob)
    ++ js ";base64," ++ default (js "undefined") (GenAI.data blob).
Proof. destruct blob as [d m]. destruct d, m; reflexivity. Qed.

(** The URL left by the loop is that of the last inline image, or the one it
    started with. *)
Lemma scanParts_url parts state :
  fst (scanParts parts state)
  = from_option dataUrl (fst state) (last (inlineImages parts)).
Proof.
  unfold scanParts, inlineImages. revert state.
  induction parts as [|part parts IH]; intros state; simpl; [reflexivity|].
  rewrite IH. unfold scanPart.
  destruct (GenAI.inlineData part) as [blob|].
  - rewrite last_cons. destruct (last _); reflexivity.
  - destruct (GenAI.text part) as [t|]; [destruct (jseq t [])|]; reflexivity.
Qed.

Lemma omap_nil_Forall {A B} (f : A -> option B) l :
  omap f l = [] -> Forall (fun x => f x = None) l.
Proof.
  induction l as [|x l IH]; simpl; [constructor|].
  destruct (f x) eqn:E; [discriminate|]. intros Hl. constructor; auto.
Qed.

Lemma Forall_omap_nil {A B} (f : A -> option B) l :
  Forall (fun x => f x = None) l -> omap f l = [].
Proof.
  induction 1 as [|x l Hx _ IH]; simpl; [reflexivity|]. rewrite Hx. exact IH.
Qed.

(** The last inline image of some parts is the image of the last part that
    has one. *)
Lemma last_inlineImages parts blob :
  last (inlineImages parts) = Some blob
  <-> exists before part after,
        parts = before ++ part :: after
        /\ GenAI.inlineData part = Some blob
        /\ Forall (fun p => GenAI.inlineData p = None) after.
Proof.
  unfold inlineImages. split.
  - induction parts as [|p parts IH]; [discriminate|].
    assert (E : omap GenAI.inlineData (p :: parts)
                = match GenAI.inlineData p with
                  | Some b => b :: omap GenAI.inlineData parts
                  | None => omap GenAI.inlineData parts
                  end) by reflexivity.
    rewrite E. clear E.
    destruct (last (omap GenAI.inlineData parts)) as [b|] eqn:Hl.
    + intros Hb.
      assert (Hb' : Some b = Some blob).
      { destruct (GenAI.inlineData p); [rewrite last_cons, Hl in Hb|];
          congruence. }
      destruct (IH Hb') as (before & part & after & -> & Hp & Ha).
      exists (p :: before), part, after. auto.
    + apply last_None in Hl.
      destruct (GenAI.inlineData p) as [b|] eqn:Hp.
      * rewrite Hl. intros [= ->].
        exists [], p, parts. split; [reflexivity|]. split; [exact Hp|].
        apply omap_nil_Forall, Hl.
      * rewrite Hl. discriminate.
  - intros (before & part & after & -> & Hp & Ha).
    rewrite omap_app.
    assert (E : omap GenAI.inlineData (part :: after) = [blob]).
    { change (omap GenAI.inlineData (part :: after))
        with (match GenAI.inlineData part with
              | Some b => b :: omap GenAI.inlineData after
              | None => omap GenAI.inlineData after
              end).
      rewrite Hp, (Forall_omap_nil _ _ Ha). reflexivity. }
    rewrite E. apply last_snoc.
Qed.

Section GenerationProperties.
Context `{Engine}.

(** The rejections of [generateHairstyleImage] are Error objects. *)
Lemma generateHairstyleImage_rejects_Error response e :
  generateHairstyleImage response = Rejected e -> exists n m, e = ErrorObject n m.
Proof.
  unfold generateHairstyleImage.
  destruct (generateHairstyleImage_try response) as [g | e0]; [discriminate|].
  intros [= <-]. destruct e0 as [n m|]; simpl; eauto.
Qed.

(** What the function does with a response that is not blocked and whose
    first candidate, if there is one, carries its parts. *)
Lemma generateHairstyleImage_scan response parts :
  reportedBlockReason response = None ->
  scannedParts response = Some parts ->
  generateHairstyleImage (Fulfilled response)
  = match last (inlineImages parts) with
    | Some blob =>
        Fulfilled {| imageUrl := dataUrl blob;
                     text := snd (scanParts parts
                                    ([], js "Ini dia tampilan baru Anda!")) |}
    | None => Rejected NoImageProducedError
    end.
Proof.
  intros Hb Hs.
  assert (Hscan :
    forall ps, ps = parts ->
    match (let '(u, t) := scanParts ps ([], js "Ini dia tampilan baru Anda!") in
           if jseq u [] then Rejected NoImageProducedError
           else Fulfilled {| imageUrl := u; text := t |})
    with
    | Fulfilled g => Fulfilled g
    | Rejected e => Rejected (generateHairstyleImage_catch e)
    end
    = match last (inlineImages parts) with
      | Some blob =>
          Fulfilled {| imageUrl := dataUrl blob;
                       text := snd (scanParts parts
                                      ([], js "Ini dia tampilan baru Anda!")) |}
      | None => Rejected NoImageProducedError
      end).
  { intros ps ->.
    pose proof (scanParts_url parts ([], js "Ini dia tampilan baru Anda!")) as Hu.
    destruct (scanParts parts _) as [u t]. cbn [fst] in Hu. subst u.
    destruct (last (inlineImages parts)) as [blob|]; cbn [from_option snd].
    - rewrite dataUrl_nonempty. reflexivity.
    - reflexivity. }
  unfold generateHairstyleImage, generateHairstyleImage_try. rewrite Hb.
  unfold scannedParts in Hs.
  destruct (GenAI.candidates response) as [[|first rest]|].
  - injection Hs as <-. apply (Hscan []). reflexivity.
  - destruct (GenAI.content first) as [content|]; [|discriminate].
    rewrite Hs. apply (Hscan parts). reflexivity.
  - injection Hs as <-. apply (Hscan []). reflexivity.
Qed.

(** C7.  When the response reports a block reason, [generateHairstyleImage]
    rejects with the blocked-request error, whose message contains the
    reported reason, and returns no image. *)
Theorem generateHairstyleImage_blocked response feedback reason :
  GenAI.promptFeedback response = Some feedback ->
  GenAI.blockReason feedback = Some reason ->
  reason <> [] ->
  generateHairstyleImage (Fulfilled response)
  = Rejected (BlockedRequestError reason)
  /\ (exists message,
        BlockedRequestError reason = ErrorObject (js "Error") message
        /\ includes message reason = true)
  /\ forall g, generateHairstyleImage (Fulfilled response) <> Fulfilled g.
Proof.
  intros Hf Hr Hne.
  assert (Hb : reportedBlockReason response = Some reason).
  { unfold reportedBlockReason. rewrite Hf, Hr.
    destruct (jseq reason []) eqn:E; [|reflexivity].
    apply jseq_eq in E. contradiction. }
  assert (E : generateHairstyleImage (Fulfilled response)
              = Rejected (BlockedRequestError reason)).
  { unfold generateHairstyleImage, generateHairstyleImage_try.
    rewrite Hb. reflexivity. }
  split; [exact E|]. split.
  - eexists; split; [reflexivity|]. apply includes_middle.
  - intros g. rewrite E. discriminate.
Qed.

(** C8, at the response whose only candidate carries no content: it is not
    blocked and has no part, so no inline image, yet the function rejects
    with the TypeError raised by reading [parts], not with the no-image
    error. *)
Theorem generateHairstyleImage_contentless_candidate :
  reportedBlockReason contentlessResponse = None
  /\ scannedParts contentlessResponse = None
  /\ generateHairstyleImage (Fulfilled contentlessResponse)
     = Rejected (ErrorObject (js "TypeError")
                   (typeErrorMessage ReadPartsOfUndefined))
  /\ generateHairstyleImage (Fulfilled contentlessResponse)
     <> Rejected NoImageProducedError.
Proof.
  split; [reflexivity|]. split; [reflexivity|]. split; [reflexivity|].
  intros E. apply (f_equal (fun r => match r with
                                     | Rejected (ErrorObject n _) => n
                                     | _ => []
                                     end)) in E.
  vm_compute in E. discriminate.
Qed.

(** C10.  With at least one candidate, an image that is returned is the
    inline image of the last part of the first candidate that has one: the
    parts after it carry no inline data, and the URL returned is the text
    data: followed by its media type, ;base64, and its data (the word
    undefined for a field that is absent).  Conversely, when the response is
    not blocked and the first candidate has such a last image part, this URL
    is the one returned.  The candidates after the first have no influence
    on the outcome. *)
Theorem generateHairstyleImage_first_candidate response first rest :
  GenAI.candidates response = Some (first :: rest) ->
  (forall g,
     generateHairstyleImage (Fulfilled response) = Fulfilled g ->
     exists content before part after blob,
       GenAI.content first = Some content
       /\ GenAI.parts content = Some (before ++ part :: after)
       /\ GenAI.inlineData part = Some blob
       /\ Forall (fun p => GenAI.inlineData p = None) after
       /\ imageUrl g
          = js "data:" ++ default (js "undefined") (GenAI.mimeType blob)
            ++ js ";base64," ++ default (js "undefined") (GenAI.data blob))
  /\ (forall content before part after blob,
        reportedBlockReason response = None ->
        GenAI.content first = Some content ->
        GenAI.parts content = Some (before ++ part :: after) ->
        GenAI.inlineData part = Some blob ->
        Forall (fun p => GenAI.inlineData p = None) after ->
        exists caption,
          generateHairstyleImage (Fulfilled response)
          = Fulfilled
              {| imageUrl :=
                   js "data:" ++ default (js "undefined") (GenAI.mimeType blob)
                   ++ js ";base64," ++ default (js "undefined") (GenAI.data blob);
                 text := caption |})
  /\ (forall others,
        generateHairstyleImage
          (Fulfilled (withCandidates (Some (first :: others)) response))
        = generateHairstyleImage (Fulfilled response)).
Proof.
  intros Hc. pose proof dataUrl_fields as Hurl.
  split; [|split].
  - intros g Hg.
    destruct (reportedBlockReason response) as [reason|] eqn:Hb.
    { unfold generateHairstyleImage, generateHairstyleImage_try in Hg.
      rewrite Hb in Hg. discriminate. }
    destruct (GenAI.content first) as [content|] eqn:Hcontent.
    2:{ unfold generateHairstyleImage, generateHairstyleImage_try in Hg.
        rewrite Hb, Hc, Hcontent in Hg. discriminate. }
    destruct (GenAI.parts content) as [parts|] eqn:Hparts.
    2:{ unfold generateHairstyleImage, generateHairstyleImage_try in Hg.
        rewrite Hb, Hc, Hcontent, Hparts in Hg. discriminate. }
    rewrite (generateHairstyleImage_scan response parts Hb) in Hg.
    2:{ unfold scannedParts. rewrite Hc, Hcontent. exact Hparts. }
    destruct (last (inlineImages parts)) as [blob|] eqn:Hl; [|discriminate].
    injection Hg as <-.
    apply last_inlineImages in Hl as (before & part & after & -> & Hp & Ha).
    exists content, before, part, after, blob.
    split; [reflexivity|]. split; [exact Hparts|]. split; [exact Hp|].
    split; [exact Ha | apply Hurl].
  - intros content before part after blob Hb Hcontent Hparts Hp Ha.
    rewrite (generateHairstyleImage_scan response (before ++ part :: after) Hb).
    2:{ unfold scannedParts. rewrite Hc, Hcontent. exact Hparts. }
    assert (Hl : last (inlineImages (before ++ part :: after)) = Some blob).
    { apply last_inlineImages. eauto 6. }
    rewrite Hl, Hurl. eauto.
  - intros others.
    unfold generateHairstyleImage, generateHairstyleImage_try,
      reportedBlockReason, withCandidates. simpl. rewrite Hc. reflexivity.
Qed.

End GenerationProperties.

(** C7 at a response blocked for SAFETY. *)
Lemma generateHairstyleImage_blocked_witness :
  @generateHairstyleImage plainEngine (Fulfilled blockedResponse)
  = Rejected (BlockedRequestError (js "SAFETY")).
Proof.
  refine (proj1 (@generateHairstyleImage_blocked plainEngine blockedResponse
                   _ (js "SAFETY") eq_refl eq_refl _)).
  discriminate.
Defined.

(** C10 at a response with two candidates: the second image of the first
    candidate is the one returned, and when the function returns, it returns
    the last image of the first candidate. *)
Lemma generateHairstyleImage_first_candidate_witness :
  (exists caption,
      @generateHairstyleImage plainEngine (Fulfilled twoCandidatesResponse)
      = Fulfilled {| imageUrl := js "data:image/jpeg;base64,BBBB";
                     text := caption |})
  /\ forall g,
       @generateHairstyleImage plainEngine (Fulfilled twoCandidatesResponse)
       = Fulfilled g ->
       exists content before part after blob,
         GenAI.content (candidateOf [ imagePart (js "image/png") (js "AAAA");
                                      textPart (js "Selesai");
                                      imagePart (js "image/jpeg") (js "BBBB") ])
         = Some content
         /\ GenAI.parts content = Some (before ++ part :: after)
         /\ GenAI.inlineData part = Some blob
         /\ Forall (fun p => GenAI.inlineData p = None) after
         /\ imageUrl g
            = js "data:" ++ default (js "undefined") (GenAI.mimeType blob)
              ++ js ";base64," ++ default (js "undefined") (GenAI.data blob).
Proof.
  destruct (@generateHairstyleImage_first_candidate plainEngine
              twoCandidatesResponse _ _ eq_refl) as (Honly & Hlast & _).
  split; [|exact Honly].
  apply (Hlast {| GenAI.parts :=
                    Some [ imagePart (js "image/png") (js "AAAA");
                           textPart (js "Selesai");
                           imagePart (js "image/jpeg") (js "BBBB") ] |}
           [ imagePart (js "image/png") (js "AAAA"); textPart (js "Selesai") ]
           (imagePart (js "image/jpeg") (js "BBBB")) []
           {| GenAI.data := Some (js "BBBB");
              GenAI.mimeType := Some (js "image/jpeg") |});
    (reflexivity || constructor).
Defined.

(** ** The table of cut definitions *)

(** C9, at the preference Rapikan: it belongs to [HaircutPreference], the
    table has no entry for it, and the prompt built for it carries the word
    undefined as the definition.  Every value of the selection list has an
    entry; the list offers Super Pendek, which is no member of
    [HaircutPreference] and has no entry in the table of the second copy of
    the service file. *)
Theorem preferenceDefinitions_misses_Rapikan :
  In (js "Rapikan") HaircutPreference
  /\ lookupDefinition preferenceDefinitions (js "Rapikan") = None
  /\ (forall hairstyleName,
        includes (prompt hairstyleName (js "Rapikan"))
                 (js "- **Definisi:** 'undefined'") = true)
  /\ Forall (fun p => exists d,
                lookupDefinition preferenceDefinitions (fst p) = Some d)
            haircutPreferences
  /\ In (js "Super Pendek") (map fst haircutPreferences)
  /\ ~ In (js "Super Pendek") HaircutPreference
  /\ lookupDefinition preferenceDefinitions_secondCopy (js "Super Pendek") = None.
Proof.
  split; [left; reflexivity|]. split; [reflexivity|]. split.
  { intros h. unfold prompt.
    eapply includes_joinLines.
    - do 5 right. left. reflexivity.
    - vm_compute. reflexivity. }
  split.
  { repeat constructor; eexists; vm_compute; reflexivity. }
  split; [right; right; left; reflexivity|]. split; [|reflexivity].
  intros Hin. vm_compute in Hin. intuition discriminate.
Qed.

(** ** The orchestrator *)

Lemma pendingCount_settle batch i call :
  batch !! i = Some (Some call) ->
  S (pendingCount (<[i := None]> batch)) = pendingCount batch.
Proof.
  revert i; induction batch as [|p batch IH]; intros [|i] Hi; try discriminate.
  - injection Hi as ->. reflexivity.
  - simpl in Hi. simpl. destruct p; rewrite (IH i Hi); reflexivity.
Qed.

Lemma allSettled_pendingCount batch :
  allSettled batch = true <-> pendingCount batch = 0.
Proof.
  induction batch as [|[c|] batch IH]; simpl; [tauto | split; discriminate | exact IH].
Qed.

Lemma pendingCount_positive batch i call :
  batch !! i = Some (Some call) -> 0 < pendingCount batch.
Proof.
  intros Hi. rewrite <- (pendingCount_settle batch i call Hi). lia.
Qed.

Lemma pendingCount_issued (calls : list Call.t) :
  pendingCount (map Some calls) = length calls.
Proof. induction calls; simpl; congruence. Qed.

(** One call settling: the entry is written, the call leaves its batch, and
    the state becomes COMPLETE exactly when the batch has no call left. *)
Lemma handlePreferenceSelect_resume_pending w b i batch call r :
  generationBatches w !! b = Some batch ->
  batch !! i = Some (Some call) ->
  generationBatches (handlePreferenceSelect_resume w b i r)
  = <[b := <[i := None]> batch]> (generationBatches w)
  /\ generatedImages (component (handlePreferenceSelect_resume w b i r))
     = <[Call.hairstyleName call := settledEntry r]>
         (generatedImages (component w))
  /\ appState (component (handlePreferenceSelect_resume w b i r))
     = if allSettled (<[i := None]> batch) then COMPLETE
       else appState (component w).
Proof.
  intros Hb Hi. unfold handlePreferenceSelect_resume. rewrite Hb, Hi. simpl.
  destruct (allSettled (<[i := None]> batch)); auto.
Qed.

Lemma allSettled_false_pending batch :
  allSettled batch = false -> exists j call, batch !! j = Some (Some call).
Proof.
  induction batch as [|[c|] batch IH]; simpl; [discriminate | |].
  - intros _. exists 0, c. reflexivity.
  - intros E. destruct (IH E) as (j & call & Hj). exists (S j), call. exact Hj.
Qed.

Lemma callInFlight_lookup w b i call :
  callInFlight w b i = Some call
  <-> exists batch,
        generationBatches w !! b = Some batch /\ batch !! i = Some (Some call).
Proof.
  unfold callInFlight. split.
  - destruct (generationBatches w !! b) as [batch|]; [|discriminate].
    destruct (batch !! i) as [[c|]|] eqn:Hi; try discriminate.
    intros [= ->]. eauto.
  - intros (batch & -> & ->). reflexivity.
Qed.

Lemma allSettled_no_pending batch i call :
  allSettled batch = true -> batch !! i <> Some (Some call).
Proof.
  intros Hall Hi. apply allSettled_pendingCount in Hall.
  pose proof (pendingCount_positive batch i call Hi). lia.
Qed.

(** What one settling call does, told by the calls in flight. *)
Lemma handlePreferenceSelect_resume_effect w b i r :
  match callInFlight w b i with
  | None => handlePreferenceSelect_resume w b i r = w
  | Some call =>
      (forall b' i',
          callInFlight (handlePreferenceSelect_resume w b i r) b' i'
          = if decide (b' = b /\ i' = i) then None else callInFlight w b' i')
      /\ generatedImages (component (handlePreferenceSelect_resume w b i r))
         = <[Call.hairstyleName call := settledEntry r]>
             (generatedImages (component w))
      /\ (appState (component (handlePreferenceSelect_resume w b i r)) = COMPLETE
          /\ (forall i', callInFlight (handlePreferenceSelect_resume w b i r) b i'
                         = None)
          \/ appState (component (handlePreferenceSelect_resume w b i r))
             = appState (component w)
             /\ exists i' c,
                  callInFlight (handlePreferenceSelect_resume w b i r) b i'
                  = Some c)
  end.
Proof.
  destruct (callInFlight w b i) as [call|] eqn:Hc.
  - apply callInFlight_lookup in Hc as (batch & Hb & Hi).
    destruct (handlePreferenceSelect_resume_pending w b i batch call r Hb Hi)
      as (Hbs & Hm & Hst).
    assert (Hlt : b < length (generationBatches w))
      by (apply lookup_lt_Some in Hb; exact Hb).
    assert (Hfl : forall b' i',
              callInFlight (handlePreferenceSelect_resume w b i r) b' i'
              = if decide (b' = b /\ i' = i) then None
                else callInFlight w b' i').
    { intros b' i'. unfold callInFlight. rewrite Hbs.
      destruct (decide (b' = b)) as [->|Hne].
      - rewrite list_lookup_insert_eq by exact Hlt. rewrite Hb.
        destruct (decide (i' = i)) as [->|Hni].
        + rewrite decide_True by auto.
          rewrite list_lookup_insert_eq; [reflexivity|].
          apply lookup_lt_Some in Hi. exact Hi.
        + rewrite decide_False by (intros [_ E]; contradiction).
          rewrite list_lookup_insert_ne by congruence. reflexivity.
      - rewrite decide_False by (intros [E _]; contradiction).
        rewrite list_lookup_insert_ne by congruence. reflexivity. }
    split; [exact Hfl|]. split; [exact Hm|].
    destruct (allSettled (<[i := None]> batch)) eqn:Hall.
    + left. split; [exact Hst|]. intros i'. rewrite Hfl.
      case_decide as Hd; [reflexivity|].
      destruct (callInFlight w b i') as [c|] eqn:Hc'; [|reflexivity].
      apply callInFlight_lookup in Hc' as (batch' & Hb' & Hi').
      rewrite Hb in Hb'. injection Hb' as <-.
      exfalso. apply (allSettled_no_pending _ i' c Hall).
      rewrite list_lookup_insert_ne; [exact Hi'|].
      intros ->. apply Hd. auto.
    + right. split; [exact Hst|].
      destruct (allSettled_false_pending _ Hall) as (j & c & Hj).
      exists j, c. apply callInFlight_lookup.
      exists (<[i := None]> batch). split; [|exact Hj].
      rewrite Hbs. apply list_lookup_insert_eq. exact Hlt.
  - unfold handlePreferenceSelect_resume. unfold callInFlight in Hc.
    destruct (generationBatches w !! b) as [batch|]; [|reflexivity].
    destruct (batch !! i) as [[c|]|]; [discriminate | reflexivity | reflexivity].
Qed.

(** Calls of any batches settling: the state becomes COMPLETE exactly when
    some batch that had calls in flight has none left, and is unchanged
    until then. *)
Lemma settlements_appState gens : forall w,
  (appState (component (run w (settlements gens))) = COMPLETE
   <-> appState (component w) = COMPLETE
       \/ exists b,
            (exists i call, callInFlight w b i = Some call)
            /\ forall i call, callInFlight w b i = Some call ->
                              exists r, (b, i, r) ∈ gens)
  /\ (appState (component (run w (settlements gens))) <> COMPLETE ->
      appState (component (run w (settlements gens))) = appState (component w)).
Proof.
  induction gens as [|[[b0 i0] r0] gens IH]; intros w.
  { simpl. split; [|reflexivity]. split; [auto|].
    intros [Hc | (b & (i & call & Hi) & Hall)]; [exact Hc|].
    destruct (Hall i call Hi) as [r Hr]. inversion Hr. }
  change (run w (settlements ((b0, i0, r0) :: gens)))
    with (run (handlePreferenceSelect_resume w b0 i0 r0) (settlements gens)).
  pose proof (handlePreferenceSelect_resume_effect w b0 i0 r0) as He.
  destruct (IH (handlePreferenceSelect_resume w b0 i0 r0)) as [IH1 IH2].
  destruct (callInFlight w b0 i0) as [call0|] eqn:Hc0.
  - destruct He as (Hfl & _ & Hst).
    assert (Hkeep : forall b i c,
              callInFlight (handlePreferenceSelect_resume w b0 i0 r0) b i = Some c
              -> callInFlight w b i = Some c /\ ~ (b = b0 /\ i = i0)).
    { intros b i c. rewrite Hfl. case_decide; [discriminate | auto]. }
    assert (Hstay : forall b i c,
              callInFlight w b i = Some c -> ~ (b = b0 /\ i = i0) ->
              callInFlight (handlePreferenceSelect_resume w b0 i0 r0) b i = Some c).
    { intros b i c Hc Hne. rewrite Hfl, decide_False by exact Hne. exact Hc. }
    destruct Hst as [[Hst Hnone] | [Hst (j & cj & Hj)]].
    + (* the batch is joined by this call *)
      assert (Hfin : appState (component
                 (run (handlePreferenceSelect_resume w b0 i0 r0) (settlements gens)))
                     = COMPLETE) by (apply IH1; auto).
      split; [|contradiction]. split; [|intros _; exact Hfin].
      intros _. right. exists b0. split; [eauto|].
      intros i c Hc. destruct (decide (i = i0)) as [->|Hne].
      * exists r0. left.
      * pose proof (Hnone i) as Hn.
        rewrite (Hstay b0 i c Hc) in Hn by (intros [_ E]; contradiction).
        discriminate Hn.
    + split.
      * rewrite IH1, Hst. split.
        -- intros [Hc | (b & (i & c & Hi) & Hall)]; [auto|]. right. exists b.
           split; [exists i, c; apply (Hkeep _ _ _ Hi)|].
           intros i' c' Hc'.
           destruct (decide (b = b0 /\ i' = i0)) as [[-> ->]|Hne].
           ++ exists r0. left.
           ++ destruct (Hall i' c' (Hstay _ _ _ Hc' Hne)) as [r Hr].
              exists r. right. exact Hr.
        -- intros [Hc | (b & (i & c & Hi) & Hall)]; [auto|]. right. exists b.
           assert (Hall' : forall i' c',
                     callInFlight (handlePreferenceSelect_resume w b0 i0 r0) b i'
                     = Some c' -> exists r, (b, i', r) ∈ gens).
           { intros i' c' Hc'. destruct (Hkeep _ _ _ Hc') as [Hw Hne].
             destruct (Hall i' c' Hw) as [r Hr]. exists r.
             apply elem_of_cons in Hr as [E | Hr]; [|exact Hr].
             injection E as -> -> _. exfalso. apply Hne. auto. }
           split; [|exact Hall'].
           destruct (decide (b = b0)) as [->|Hne]; [eauto|].
           exists i, c. apply Hstay; [exact Hi|]. intros [E _]. contradiction.
      * intros Hn. rewrite (IH2 Hn). exact Hst.
  - rewrite He in IH1, IH2 |- *. split; [|exact IH2].
    rewrite IH1. split.
    + intros [Hc | (b & Hex & Hall)]; [auto|]. right. exists b.
      split; [exact Hex|]. intros i c Hc. destruct (Hall i c Hc) as [r Hr].
      exists r. right. exact Hr.
    + intros [Hc | (b & Hex & Hall)]; [auto|]. right. exists b.
      split; [exact Hex|]. intros i c Hc. destruct (Hall i c Hc) as [r Hr].
      exists r. apply elem_of_cons in Hr as [E | Hr]; [|exact Hr].
      injection E as -> -> _. congruence.
Qed.

(** The calls of one batch settling in any order: the state stays
    GENERATING until the last of them has settled and is COMPLETE then. *)
Lemma settleEvents_join order : forall w b batch,
  generationBatches w !! b = Some batch ->
  appState (component w) = GENERATING ->
  0 < pendingCount batch ->
  NoDup order.*1 ->
  (forall i, i ∈ order.*1 -> exists call, batch !! i = Some (Some call)) ->
  appState (component (run w (settleEvents b order)))
  = if length order <? pendingCount batch then GENERATING else COMPLETE.
Proof.
  induction order as [|[i r] order IH]; intros w b batch Hb Hg Hpos Hnd Hin.
  - simpl. destruct (Nat.ltb_spec 0 (pendingCount batch)); [exact Hg | lia].
  - destruct (Hin i) as [call Hi]; [left|].
    destruct (handlePreferenceSelect_resume_pending w b i batch call r Hb Hi)
      as (Hbs & _ & Hst).
    pose proof (pendingCount_settle batch i call Hi) as Hcount.
    apply NoDup_cons in Hnd as [Hni Hnd].
    assert (Hrest : forall j, j ∈ order.*1 ->
              exists c, <[i := None]> batch !! j = Some (Some c)).
    { intros j Hj. destruct (Hin j) as [c Hc]; [right; exact Hj|].
      exists c. rewrite list_lookup_insert_ne; [exact Hc|].
      intros ->. contradiction. }
    change (run w (settleEvents b ((i, r) :: order)))
      with (run (handlePreferenceSelect_resume w b i r) (settleEvents b order)).
    destruct (allSettled (<[i := None]> batch)) eqn:Hall.
    + apply allSettled_pendingCount in Hall.
      destruct order as [|[j r'] order].
      * simpl. rewrite Hst.
        destruct (Nat.ltb_spec 1 (pendingCount batch)); [lia | reflexivity].
      * destruct (Hrest j) as [c Hc]; [left|].
        pose proof (pendingCount_positive _ j c Hc). lia.
    + assert (Hpos' : 0 < pendingCount (<[i := None]> batch)).
      { destruct (pendingCount (<[i := None]> batch)) eqn:E; [|lia].
        apply allSettled_pendingCount in E. congruence. }
      rewrite (IH _ b (<[i := None]> batch)); auto.
      * simpl length. rewrite <- Hcount.
        destruct (Nat.ltb_spec (length order) (pendingCount (<[i := None]> batch)));
          destruct (Nat.ltb_spec (S (length order))
                      (S (pendingCount (<[i := None]> batch))));
          (reflexivity || lia).
      * rewrite Hbs. apply list_lookup_insert_eq.
        apply lookup_lt_Some in Hb. exact Hb.
      * rewrite Hst. exact Hg.
Qed.

(** X21.  The state becomes COMPLETE in two ways only: a call settles and
    leaves its batch without a call in flight, or a preference is selected
    for an analysis without hairstyles. *)
Lemma COMPLETE_only_by_join w e :
  appState (component w) <> COMPLETE ->
  appState (component (dispatch w e)) = COMPLETE ->
  (exists b i r batch call,
      e = GenerationSettled b i r
      /\ generationBatches w !! b = Some batch
      /\ batch !! i = Some (Some call)
      /\ allSettled (<[i := None]> batch) = true)
  \/ (exists preference analysis,
        e = PreferenceSelect preference
        /\ analysisResult (component w) = Some analysis
        /\ hairstyles analysis = []).
Proof.
  intros Hn. destruct e as [| |i r| |i r|preference|b i r]; simpl.
  - discriminate.
  - discriminate.
  - unfold processFile_resume.
    destruct (fileReads w !! i) as [[|]|]; try contradiction.
    destruct r; discriminate.
  - unfold handleAnalyzeClick.
    destruct (originalImage (component w)); [discriminate | contradiction].
  - unfold handleAnalyzeClick_resume.
    destruct (analysisCalls w !! i) as [[c|]|]; try contradiction.
    destruct r; discriminate.
  - unfold handlePreferenceSelect.
    destruct (originalImage (component w)) as [image|]; [|contradiction].
    destruct (analysisResult (component w)) as [analysis|] eqn:Ha; [|contradiction].
    destruct (isGENERATING (appState (component w))); [contradiction|].
    unfold generationCalls. destruct (hairstyles analysis) eqn:Hh; simpl.
    + intros _. right. eauto.
    + discriminate.
  - unfold handlePreferenceSelect_resume.
    destruct (generationBatches w !! b) as [batch|] eqn:Hb; [|contradiction].
    destruct (batch !! i) as [[call|]|] eqn:Hi; try contradiction.
    simpl. destruct (allSettled (<[i := None]> batch)) eqn:Hall.
    + intros _. left. exists b, i, r, batch, call. auto.
    + intros Hc. simpl in Hc. contradiction.
Qed.

Lemma isGENERATING_false a : a <> GENERATING -> isGENERATING a = false.
Proof. destruct a; simpl; congruence. Qed.

(** The calls in flight right after a selection: those that were in flight
    before, and the calls of the new batch. *)
Lemma callInFlight_select w image analysis preference b i :
  originalImage (component w) = Some image ->
  analysisResult (component w) = Some analysis ->
  appState (component w) <> GENERATING ->
  callInFlight (handlePreferenceSelect w preference) b i
  = if decide (b = length (generationBatches w))
    then generationCalls image analysis preference !! i
    else callInFlight w b i.
Proof.
  intros Himg Han Hst. unfold callInFlight, handlePreferenceSelect.
  rewrite Himg, Han, (isGENERATING_false _ Hst). simpl.
  destruct (decide (b = length (generationBatches w))) as [->|Hne].
  - rewrite list_lookup_middle by reflexivity.
    rewrite list_lookup_fmap.
    destruct (generationCalls image analysis preference !! i); reflexivity.
  - destruct (Nat.lt_ge_cases b (length (generationBatches w))) as [Hlt|Hge].
    + rewrite lookup_app_l by exact Hlt. reflexivity.
    + rewrite (lookup_ge_None_2 (generationBatches w) b) by lia.
      rewrite lookup_ge_None_2; [reflexivity|].
      rewrite length_app. simpl. lia.
Qed.

Lemma appState_select w image analysis preference :
  originalImage (component w) = Some image ->
  analysisResult (component w) = Some analysis ->
  appState (component w) <> GENERATING ->
  appState (component (handlePreferenceSelect w preference))
  = match hairstyles analysis with [] => COMPLETE | _ :: _ => GENERATING end.
Proof.
  intros Himg Han Hst. unfold handlePreferenceSelect.
  rewrite Himg, Han, (isGENERATING_false _ Hst). unfold generationCalls.
  destruct (hairstyles analysis); reflexivity.
Qed.

Lemma generationCalls_lookup image analysis preference i :
  (i < length (hairstyles analysis) ->
   exists call, generationCalls image analysis preference !! i = Some call)
  /\ (forall call, generationCalls image analysis preference !! i = Some call ->
      i < length (hairstyles analysis)
      /\ exists style, hairstyles analysis !! i = Some style
                       /\ Call.hairstyleName call = name style).
Proof.
  unfold generationCalls. rewrite list_lookup_fmap. split.
  - intros Hi. destruct (lookup_lt_is_Some_2 _ _ Hi) as [style ->]. simpl. eauto.
  - intros call. destruct (hairstyles analysis !! i) as [style|] eqn:Hs;
      [|discriminate].
    intros [= <-]. split; [apply lookup_lt_Some in Hs; exact Hs | eauto].
Qed.

(** After a selection, with calls of any batches settling: the state is
    GENERATING or COMPLETE; it is COMPLETE exactly when every call of the new
    batch has settled, or every call that an earlier batch still had in
    flight has. *)
Lemma handlePreferenceSelect_join w image analysis preference :
  originalImage (component w) = Some image ->
  analysisResult (component w) = Some analysis ->
  appState (component w) <> GENERATING ->
  forall gens : list (nat * nat * settled GeneratedImage),
     (appState (component (run (handlePreferenceSelect w preference)
                             (settlements gens))) = GENERATING
      \/ appState (component (run (handlePreferenceSelect w preference)
                                (settlements gens))) = COMPLETE)
     /\ (appState (component (run (handlePreferenceSelect w preference)
                                (settlements gens))) = COMPLETE
         <-> (forall i, i < length (hairstyles analysis) ->
                exists r, (length (generationBatches w), i, r) ∈ gens)
             \/ (exists b batch,
                   generationBatches w !! b = Some batch
                   /\ allSettled batch = false
                   /\ forall i call, batch !! i = Some (Some call) ->
                                     exists r, (b, i, r) ∈ gens))
     /\ ((forall b batch, generationBatches w !! b = Some batch ->
                          allSettled batch = true) ->
         (appState (component (run (handlePreferenceSelect w preference)
                                 (settlements gens))) = COMPLETE
          <-> forall i, i < length (hairstyles analysis) ->
                exists r, (length (generationBatches w), i, r) ∈ gens)).
Proof.
  intros Himg Han Hst gens.
  destruct (settlements_appState gens (handlePreferenceSelect w preference))
    as [Hc Hn].
  pose proof (appState_select w image analysis preference Himg Han Hst) as Hsel.
  pose proof (fun b i => callInFlight_select w image analysis preference b i
                           Himg Han Hst) as Hfl.
  assert (Hiff :
    appState (component (run (handlePreferenceSelect w preference)
                           (settlements gens))) = COMPLETE
    <-> (forall i, i < length (hairstyles analysis) ->
           exists r, (length (generationBatches w), i, r) ∈ gens)
        \/ (exists b batch,
              generationBatches w !! b = Some batch
              /\ allSettled batch = false
              /\ forall i call, batch !! i = Some (Some call) ->
                                exists r, (b, i, r) ∈ gens)).
  { rewrite Hc. split.
    - intros [Hs | (b & (i & call & Hi) & Hall)].
      + left. intros i Hi. rewrite Hsel in Hs.
        destruct (hairstyles analysis); [simpl in Hi; lia | discriminate].
      + destruct (decide (b = length (generationBatches w))) as [->|Hne].
        * left. intros j Hj.
          destruct (proj1 (generationCalls_lookup image analysis preference j) Hj)
            as [c Hc'].
          apply (Hall j c). rewrite Hfl, decide_True by reflexivity. exact Hc'.
        * right. rewrite Hfl, decide_False in Hi by exact Hne.
          apply callInFlight_lookup in Hi as (batch & Hb & Hi).
          exists b, batch. split; [exact Hb|]. split.
          -- destruct (allSettled batch) eqn:E; [|reflexivity].
             exfalso. apply (allSettled_no_pending _ i call E Hi).
          -- intros j c Hj. apply (Hall j c).
             rewrite Hfl, decide_False by exact Hne.
             apply callInFlight_lookup. eauto.
    - intros [HA | (b & batch & Hb & Hns & Hall)].
      + destruct (hairstyles analysis) as [|style styles] eqn:Hh.
        * left. rewrite Hsel. reflexivity.
        * right. exists (length (generationBatches w)). split.
          -- destruct (proj1 (generationCalls_lookup image analysis preference 0))
               as [c Hc']; [rewrite Hh; simpl; lia|].
             exists 0, c. rewrite Hfl, decide_True by reflexivity. exact Hc'.
          -- intros i c Hi. rewrite Hfl, decide_True in Hi by reflexivity.
             apply HA. rewrite <- Hh.
             apply (proj2 (generationCalls_lookup image analysis preference i)
                      c Hi).
      + right. exists b.
        assert (Hne : b <> length (generationBatches w)).
        { apply lookup_lt_Some in Hb. lia. }
        split.
        * destruct (allSettled_false_pending _ Hns) as (j & c & Hj).
          exists j, c. rewrite Hfl, decide_False by exact Hne.
          apply callInFlight_lookup. eauto.
        * intros i c Hi. rewrite Hfl, decide_False in Hi by exact Hne.
          apply callInFlight_lookup in Hi as (batch' & Hb' & Hi).
          rewrite Hb in Hb'. injection Hb' as <-. apply (Hall i c Hi). }
  split; [|split; [exact Hiff|]].
  - destruct (appState (component (run (handlePreferenceSelect w preference)
                                     (settlements gens)))) eqn:E;
      auto; rewrite <- E in Hn; rewrite Hn in E by (rewrite E; discriminate);
      rewrite Hsel in E; destruct (hairstyles analysis); discriminate.
  - intros Hold. rewrite Hiff. split; [|auto].
    intros [HA | (b & batch & Hb & Hns & _)]; [exact HA|].
    rewrite (Hold b batch Hb) in Hns. discriminate.
Qed.

(** C1, as amended.  With a photo and an analysis in place and no generation
    running, selecting a preference issues one call per suggested hairstyle,
    each with the image, the hair length of the analysis, the chosen
    preference and the name of its hairstyle, and starts nothing else.  When
    only these calls settle, in whatever order and with whatever outcomes,
    the state is GENERATING as long as one of them has not settled and
    COMPLETE once all have.  When calls of any batches settle, the state is
    GENERATING or COMPLETE, and COMPLETE exactly when all the calls of the
    selection have settled or all the calls that an earlier batch still had
    in flight have: only when no earlier call is in flight does COMPLETE wait
    for all the calls of the selection. *)
Theorem handlePreferenceSelect_fan_out w image analysis preference :
  originalImage (component w) = Some image ->
  analysisResult (component w) = Some analysis ->
  appState (component w) <> GENERATING ->
  generationBatches (handlePreferenceSelect w preference)
  = generationBatches w ++ [map Some (generationCalls image analysis preference)]
  /\ fileReads (handlePreferenceSelect w preference) = fileReads w
  /\ analysisCalls (handlePreferenceSelect w preference) = analysisCalls w
  /\ length (generationCalls image analysis preference)
     = length (hairstyles analysis)
  /\ (forall i style,
        hairstyles analysis !! i = Some style ->
        generationCalls image analysis preference !! i
        = Some {| Call.imageBase64 := base64 image;
                  Call.mimeType := mimeType image;
                  Call.hairstyleName := name style;
                  Call.originalHairLength := originalHairLength analysis;
                  Call.haircutPreference := preference |})
  /\ (forall order : list (nat * settled GeneratedImage),
        NoDup order.*1 ->
        (forall i, i ∈ order.*1 -> i < length (hairstyles analysis)) ->
        appState (component
                    (run (handlePreferenceSelect w preference)
                       (settleEvents (length (generationBatches w)) order)))
        = if length order <? length (hairstyles analysis) then GENERATING
          else COMPLETE)
  /\ (forall gens : list (nat * nat * settled GeneratedImage),
        (appState (component (run (handlePreferenceSelect w preference)
                                (settlements gens))) = GENERATING
         \/ appState (component (run (handlePreferenceSelect w preference)
                                   (settlements gens))) = COMPLETE)
        /\ (appState (component (run (handlePreferenceSelect w preference)
                                   (settlements gens))) = COMPLETE
            <-> (forall i, i < length (hairstyles analysis) ->
                   exists r, (length (generationBatches w), i, r) ∈ gens)
                \/ (exists b batch,
                      generationBatches w !! b = Some batch
                      /\ allSettled batch = false
                      /\ forall i call, batch !! i = Some (Some call) ->
                                        exists r, (b, i, r) ∈ gens))
        /\ ((forall b batch, generationBatches w !! b = Some batch ->
                             allSettled batch = true) ->
            (appState (component (run (handlePreferenceSelect w preference)
                                    (settlements gens))) = COMPLETE
             <-> forall i, i < length (hairstyles analysis) ->
                   exists r, (length (generationBatches w), i, r) ∈ gens))).
Proof.
  intros Himg Han Hst.
  assert (Hlen : length (generationCalls image analysis preference)
                 = length (hairstyles analysis)).
  { unfold generationCalls. apply length_map. }
  assert (Hw1 : handlePreferenceSelect w preference
    = {| component :=
           match generationCalls image analysis preference with
           | [] =>
               setAppState COMPLETE
                 (setGeneratedImages
                    (fun _ => initialImageStates (hairstyles analysis))
                    (setAppState GENERATING
                       (setHaircutPreference (Some preference) (component w))))
           | _ :: _ =>
               setGeneratedImages
                 (fun _ => initialImageStates (hairstyles analysis))
                 (setAppState GENERATING
                    (setHaircutPreference (Some preference) (component w)))
           end;
         fileReads := fileReads w;
         analysisCalls := analysisCalls w;
         generationBatches :=
           generationBatches w
           ++ [map Some (generationCalls image analysis preference)] |}).
  { unfold handlePreferenceSelect.
    rewrite Himg, Han, (isGENERATING_false _ Hst). reflexivity. }
  split; [rewrite Hw1; reflexivity|]. split; [rewrite Hw1; reflexivity|].
  split; [rewrite Hw1; reflexivity|]. split; [exact Hlen|]. split.
  { intros i style Hi. unfold generationCalls.
    rewrite list_lookup_fmap, Hi. reflexivity. }
  split;
    [|intros gens;
      apply (handlePreferenceSelect_join w image analysis preference
               Himg Han Hst gens)].
  intros order Hnd Hin. rewrite <- Hlen in *.
  destruct (generationCalls image analysis preference) as [|c calls] eqn:Hcalls.
  - destruct order as [|[i r] order].
    + rewrite Hw1. reflexivity.
    + specialize (Hin i (list_elem_of_here _ _)). simpl in Hin. lia.
  - rewrite <- (pendingCount_issued (c :: calls)).
    apply settleEvents_join.
    + rewrite Hw1. simpl. rewrite lookup_app_r by lia.
      rewrite Nat.sub_diag. reflexivity.
    + rewrite Hw1. reflexivity.
    + simpl. lia.
    + exact Hnd.
    + intros i Hi. specialize (Hin i Hi).
      destruct (lookup_lt_is_Some_2 (c :: calls) i Hin) as [call Hcall].
      exists call. rewrite list_lookup_fmap, Hcall. reflexivity.
Qed.

(** C2, as amended.  A call that is in flight settles into the mapping that
    is current at that moment: its entry is written under its hairstyle
    name and every other entry is kept.  A reset empties the mapping and
    leaves the calls in flight as they are.  A preference selected while the
    state is GENERATING is ignored; selected in any state, it leaves the
    calls in flight as they are. *)
Theorem late_result_is_merged w b i batch call r :
  generationBatches w !! b = Some batch ->
  batch !! i = Some (Some call) ->
  generatedImages (component (dispatch w (GenerationSettled b i r)))
  = <[Call.hairstyleName call := settledEntry r]> (generatedImages (component w))
  /\ generatedImages (component (dispatch w ResetClick)) = ∅
  /\ generationBatches (dispatch w ResetClick) = generationBatches w
  /\ generatedImages
       (component (dispatch (dispatch w ResetClick) (GenerationSettled b i r)))
     = {[ Call.hairstyleName call := settledEntry r ]}
  /\ (appState (component w) = GENERATING ->
      forall preference, dispatch w (PreferenceSelect preference) = w)
  /\ (forall preference,
        generationBatches (dispatch w (PreferenceSelect preference)) !! b
        = Some batch).
Proof.
  intros Hb Hi. split; [|split; [|split; [|split; [|split]]]].
  - apply (handlePreferenceSelect_resume_pending w b i batch call r Hb Hi).
  - reflexivity.
  - reflexivity.
  - destruct (handlePreferenceSelect_resume_pending
                (dispatch w ResetClick) b i batch call r Hb Hi) as (_ & Hm & _).
    change (dispatch (dispatch w ResetClick) (GenerationSettled b i r))
      with (handlePreferenceSelect_resume (dispatch w ResetClick) b i r).
    rewrite Hm. reflexivity.
  - intros Hg preference. simpl. unfold handlePreferenceSelect.
    destruct (originalImage (component w)); [|reflexivity].
    destruct (analysisResult (component w)); [|reflexivity].
    rewrite Hg. reflexivity.
  - intros preference. simpl. unfold handlePreferenceSelect.
    destruct (originalImage (component w)); [|exact Hb].
    destruct (analysisResult (component w)); [|exact Hb].
    destruct (isGENERATING (appState (component w))); [exact Hb|].
    simpl. rewrite lookup_app_l; [exact Hb|].
    apply lookup_lt_Some in Hb. exact Hb.
Qed.

(** The scenario of the sample analysis: of the three calls two succeed and
    one is blocked; the state is COMPLETE, with two images and one error in
    the mapping. *)
Example two_succeed_one_blocked :
  let final :=
    component
      (run generatingWorld
         (settleEvents 0
            [ (2, Fulfilled sampleResult);
              (0, Rejected (BlockedRequestError (js "SAFETY")));
              (1, Fulfilled sampleResult) ])) in
  appState final = COMPLETE
  /\ haircutPreference final = Some (js "Pendek")
  /\ entry_url <$> generatedImages final !! js "Pixie"
     = Some (Some (imageUrl sampleResult))
  /\ entry_url <$> generatedImages final !! js "Layers"
     = Some (Some (imageUrl sampleResult))
  /\ generatedImages final !! js "Bob"
     = Some {| entry_url := None;
               entry_error :=
                 Some (js "Gagal membuat gambar karena permintaan diblokir: SAFETY. Coba gaya atau foto lain.");
               loading := false |}.
Proof. vm_compute. repeat split; reflexivity. Qed.

(** C1 at the sample analysis with its three hairstyles: three calls are
    issued; after two of them have settled, one rejected, the state is
    still GENERATING, and after the third it is COMPLETE. *)
Lemma handlePreferenceSelect_fan_out_witness :
  generationBatches generatingWorld
  = [map Some (generationCalls sampleImage sampleAnalysis (js "Pendek"))]
  /\ length (generationCalls sampleImage sampleAnalysis (js "Pendek")) = 3
  /\ appState (component
                 (run generatingWorld
                    (settleEvents 0
                       [ (2, Fulfilled sampleResult);
                         (0, Rejected (BlockedRequestError (js "SAFETY"))) ])))
     = GENERATING
  /\ appState (component
                 (run generatingWorld
                    (settleEvents 0
                       [ (2, Fulfilled sampleResult);
                         (0, Rejected (BlockedRequestError (js "SAFETY")));
                         (1, Fulfilled sampleResult) ])))
     = COMPLETE.
Proof.
  assert (Hst : appState (component analyzedWorld) <> GENERATING).
  { intros E. vm_compute in E. discriminate E. }
  destruct (handlePreferenceSelect_fan_out analyzedWorld sampleImage
              sampleAnalysis (js "Pendek") eq_refl eq_refl Hst)
    as (Hb & _ & _ & Hl & _ & Hjoin & _).
  split; [exact Hb|]. split; [exact Hl|]. split.
  - refine (Hjoin [ (2, Fulfilled sampleResult);
                    (0, Rejected (BlockedRequestError (js "SAFETY"))) ] _ _).
    + apply (bool_decide_unpack _). vm_compute. exact I.
    + intros i Hi. apply list_elem_of_In in Hi. simpl in *. lia.
  - refine (Hjoin [ (2, Fulfilled sampleResult);
                    (0, Rejected (BlockedRequestError (js "SAFETY")));
                    (1, Fulfilled sampleResult) ] _ _).
    + apply (bool_decide_unpack _). vm_compute. exact I.
    + intros i Hi. apply list_elem_of_In in Hi. simpl in *. lia.
Defined.

(** C2, the counterexample: after the reset the mapping is empty, and the
    result of a call of the discarded run, arriving then, is written into
    it; when a second run has started in the meantime, the late error of
    the first run is written into the mapping of the second, under a
    hairstyle name the second run does not have. *)
Lemma late_result_written_after_reset :
  generatedImages (component resetWorld) = ∅
  /\ generatedImages
       (component (dispatch resetWorld
                     (GenerationSettled 0 0 (Fulfilled sampleResult))))
     !! js "Bob"
     = Some {| entry_url := Some (imageUrl sampleResult);
               entry_error := None; loading := false |}
  /\ generatedImages (component secondRunWorld) !! js "Bob" = None
  /\ generatedImages
       (component (dispatch secondRunWorld
                     (GenerationSettled 0 0
                        (Rejected (BlockedRequestError (js "SAFETY"))))))
     !! js "Bob"
     = Some {| entry_url := None;
               entry_error :=
                 Some (js "Gagal membuat gambar karena permintaan diblokir: SAFETY. Coba gaya atau foto lain.");
               loading := false |}.
Proof.
  split; [reflexivity|]. split; [vm_compute; reflexivity|].
  split; vm_compute; reflexivity.
Qed.

(** C1, the counterexample.  A photo and an analysis with one hairstyle are
    in place and the state is ANALYZED, while the three calls of the run
    discarded by the reset are still in flight.  The selection issues its one
    call and the state is GENERATING.  When the three calls of the discarded
    run have settled, the state is COMPLETE, although the call of the
    selection has not settled. *)
Lemma handlePreferenceSelect_complete_too_early :
  originalImage (component reanalyzedWorld) = Some sampleImage
  /\ analysisResult (component reanalyzedWorld) = Some otherAnalysis
  /\ appState (component reanalyzedWorld) = ANALYZED
  /\ length (hairstyles otherAnalysis) = 1
  /\ appState (component (handlePreferenceSelect reanalyzedWorld (js "Sedang")))
     = GENERATING
  /\ generationBatches
       (run (handlePreferenceSelect reanalyzedWorld (js "Sedang"))
          (settleEvents 0 [ (0, Fulfilled sampleResult);
                            (1, Fulfilled sampleResult);
                            (2, Fulfilled sampleResult) ])) !! 1
     = Some [ Some {| Call.imageBase64 := js "QUJD";
                      Call.mimeType := js "image/png";
                      Call.hairstyleName := js "Shag";
                      Call.originalHairLength := js "Sebahu";
                      Call.haircutPreference := js "Sedang" |} ]
  /\ appState
       (component
          (run (handlePreferenceSelect reanalyzedWorld (js "Sedang"))
             (settleEvents 0 [ (0, Fulfilled sampleResult);
                               (1, Fulfilled sampleResult);
                               (2, Fulfilled sampleResult) ])))
     = COMPLETE.
Proof. repeat split; vm_compute; reflexivity. Qed.

(** The scenario of a changed preference.  The join of the discarded first
    run has set COMPLETE during the second run, whose call for the
    preference Sedang is still in flight; now the preference Pendek is
    selected and a third run starts.  When the call of the second run
    settles, its image is written under Shag into the mapping of the third
    run, and the state is set to COMPLETE while the call for Pendek is still
    in flight. *)
Example preference_change_abandons_run :
  appState (component staleJoinWorld) = COMPLETE
  /\ haircutPreference (component thirdRunWorld) = Some (js "Pendek")
  /\ appState (component thirdRunWorld) = GENERATING
  /\ generatedImages (component thirdRunWorld) !! js "Shag" = Some loadingEntry
  /\ callInFlight thirdRunWorld 1 0
     = Some {| Call.imageBase64 := js "QUJD";
               Call.mimeType := js "image/png";
               Call.hairstyleName := js "Shag";
               Call.originalHairLength := js "Sebahu";
               Call.haircutPreference := js "Sedang" |}
  /\ generatedImages
       (component (dispatch thirdRunWorld
                     (GenerationSettled 1 0 (Fulfilled sampleResult))))
     !! js "Shag"
     = Some {| entry_url := Some (imageUrl sampleResult);
               entry_error := None; loading := false |}
  /\ haircutPreference
       (component (dispatch thirdRunWorld
                     (GenerationSettled 1 0 (Fulfilled sampleResult))))
     = Some (js "Pendek")
  /\ appState
       (component (dispatch thirdRunWorld
                     (GenerationSettled 1 0 (Fulfilled sampleResult))))
     = COMPLETE
  /\ callInFlight
       (dispatch thirdRunWorld (GenerationSettled 1 0 (Fulfilled sampleResult)))
       2 0
     = Some {| Call.imageBase64 := js "QUJD";
               Call.mimeType := js "image/png";
               Call.hairstyleName := js "Shag";
               Call.originalHairLength := js "Sebahu";
               Call.haircutPreference := js "Pendek" |}.
Proof. repeat split; vm_compute; reflexivity. Qed.

(** C2 as amended, at the first call of the sample run. *)
Lemma late_result_is_merged_witness :
  generatedImages
    (component (dispatch resetWorld
                  (GenerationSettled 0 0 (Fulfilled sampleResult))))
  = {[ js "Bob" := settledEntry (Fulfilled sampleResult) ]}.
Proof.
  exact (proj1 (proj2 (proj2 (proj2
    (late_result_is_merged generatingWorld 0 0
       (map Some (generationCalls sampleImage sampleAnalysis (js "Pendek")))
       {| Call.imageBase64 := js "QUJD";
          Call.mimeType := js "image/png";
          Call.hairstyleName := js "Bob";
          Call.originalHairLength := js "Long";
          Call.haircutPreference := js "Pendek" |}
       (Fulfilled sampleResult) eq_refl eq_refl))))).
Defined.

(** ** [toBase64] *)

Lemma split_no_separator sep s :
  Forall (fun c => c <> sep) s -> split sep s = [s].
Proof.
  induction 1 as [|c s Hc _ IH]; simpl; [reflexivity|].
  rewrite (proj2 (N.eqb_neq c sep) Hc), IH. reflexivity.
Qed.

Lemma split_at_separator sep a b :
  Forall (fun c => c <> sep) a -> split sep (a ++ sep :: b) = a :: split sep b.
Proof.
  induction 1 as [|c a Hc _ IH]; simpl.
  - rewrite N.eqb_refl. reflexivity.
  - rewrite (proj2 (N.eqb_neq c sep) Hc), IH. reflexivity.
Qed.

Lemma toBase64_onload_pieces (mime encoding payload : jsstring) :
  Forall (fun c => c <> 58%N /\ c <> 59%N /\ c <> 44%N) mime ->
  Forall (fun c => c <> 44%N) encoding ->
  Forall (fun c => c <> 44%N) payload ->
  toBase64_onload
    (js "data:" ++ mime ++ 59%N :: encoding ++ 44%N :: payload)
  = (Some payload, Some mime).
Proof.
  intros Hm He Hp. unfold toBase64_onload. f_equal.
  - replace (js "data:" ++ mime ++ 59%N :: encoding ++ 44%N :: payload)
      with ((js "data:" ++ mime ++ 59%N :: encoding) ++ 44%N :: payload)
      by (rewrite <- !app_assoc; reflexivity).
    rewrite split_at_separator, (split_no_separator 44 payload Hp).
    + reflexivity.
    + apply Forall_app; split; [repeat constructor; discriminate|].
      apply Forall_app; split.
      * eapply Forall_impl; [exact Hm|]. simpl. tauto.
      * constructor; [discriminate | exact He].
  - replace (js "data:" ++ mime ++ 59%N :: encoding ++ 44%N :: payload)
      with ((js "data:" ++ mime) ++ 59%N :: (encoding ++ 44%N :: payload))
      by (rewrite <- !app_assoc; reflexivity).
    rewrite split_at_separator.
    + change (split 58 (js "data" ++ 58%N :: mime) !! 1 = Some mime).
      rewrite split_at_separator by (repeat constructor; discriminate).
      rewrite split_no_separator; [reflexivity|].
      eapply Forall_impl; [exact Hm|]. simpl. tauto.
    + apply Forall_app; split; [repeat constructor; discriminate|].
      eapply Forall_impl; [exact Hm|]. simpl. tauto.
Qed.

(** X1.  For the data URL of a file, [data:] followed by the media type, a
    semicolon, the encoding word, a comma and the payload, the handler of
    [toBase64] yields the payload as [base64] and the media type as
    [mimeType]: provided the media type holds no colon, semicolon or comma
    and neither the encoding word nor the payload holds a comma. *)
Theorem toBase64_onload_dataUrl (mime encoding payload : jsstring) :
  Forall (fun c => c <> 58%N /\ c <> 59%N /\ c <> 44%N) mime ->
  Forall (fun c => c <> 44%N) encoding ->
  Forall (fun c => c <> 44%N) payload ->
  toBase64_onload
    (js "data:" ++ mime ++ 59%N :: encoding ++ 44%N :: payload)
  = (Some payload, Some mime).
Proof. apply toBase64_onload_pieces. Qed.

(** X22.  From the data URL of the uploaded file to the request: what
    [toBase64] takes out of a base64 data URL, put into the image part by
    [fileToGenerativePart], is inline data whose data URL is the one of the
    file again. *)
Theorem upload_round_trip (mime payload : jsstring) :
  Forall (fun c => c <> 58%N /\ c <> 59%N /\ c <> 44%N) mime ->
  Forall (fun c => c <> 44%N) payload ->
  exists b m blob,
    toBase64_onload (js "data:" ++ mime ++ js ";base64," ++ payload)
    = (Some b, Some m)
    /\ GenAI.inlineData (fileToGenerativePart b m) = Some blob
    /\ dataUrl blob = js "data:" ++ mime ++ js ";base64," ++ payload.
Proof.
  intros Hm Hp. exists payload, mime. eexists. split; [|split].
  - change (js ";base64," ++ payload)
      with (59%N :: js "base64" ++ 44%N :: payload).
    apply toBase64_onload_pieces; [exact Hm | | exact Hp].
    repeat constructor; discriminate.
  - reflexivity.
  - reflexivity.
Qed.

(** X2.  A reader result without a comma leaves [base64] undefined, and one
    whose part before the first semicolon holds no colon leaves [mimeType]
    undefined; the handler resolves all the same. *)
Theorem toBase64_onload_undefined (result : jsstring) :
  (Forall (fun c => c <> 44%N) result -> fst (toBase64_onload result) = None)
  /\ (Forall (fun c => c <> 58%N) result ->
      snd (toBase64_onload result) = None).
Proof.
  unfold toBase64_onload; simpl. split.
  - intros H. rewrite (split_no_separator 44 result H). reflexivity.
  - intros H.
    assert (Hhead : forall s, Forall (fun c => c <> 58%N) s ->
              exists head tail, split 59 s = head :: tail
                                /\ Forall (fun c => c <> 58%N) head).
    { induction 1 as [|c s Hc Hs (head & tail & E & Hh)]; simpl.
      - exists [], []. split; [reflexivity | constructor].
      - destruct (c =? 59)%N.
        + exists [], (split 59 s). split; [reflexivity | constructor].
        + rewrite E. exists (c :: head), tail.
          split; [reflexivity | constructor; assumption]. }
    destruct (Hhead result H) as (head & tail & E & Hh).
    rewrite E. simpl. rewrite (split_no_separator 58 head Hh). reflexivity.
Qed.

(** ** More on [generateHairstyleImage] *)

Lemma truthyText_nonempty v t : truthyText v = Some t -> t <> [].
Proof.
  destruct v as [s|]; simpl; [|discriminate].
  destruct (jseq s []) eqn:E; [discriminate|].
  intros [= <-]. apply jseq_neq. exact E.
Qed.

(** The caption left by the loop is the last caption text, or the one it
    started with. *)
Lemma scanParts_caption parts state :
  snd (scanParts parts state)
  = from_option id (snd state) (last (captionTexts parts)).
Proof.
  unfold scanParts, captionTexts. revert state.
  induction parts as [|part parts IH]; intros state; simpl; [reflexivity|].
  rewrite IH. unfold scanPart.
  destruct (GenAI.inlineData part) as [blob|]; [reflexivity|].
  destruct (GenAI.text part) as [t|]; simpl; [|reflexivity].
  destruct (jseq t []); [reflexivity|].
  rewrite last_cons. destruct (last _); reflexivity.
Qed.

Lemma captionTexts_nonempty parts t : In t (captionTexts parts) -> t <> [].
Proof.
  unfold captionTexts. induction parts as [|part parts IH]; simpl; [tauto|].
  destruct (GenAI.inlineData part); [exact IH|].
  destruct (truthyText (GenAI.text part)) as [t'|] eqn:E; [|exact IH].
  intros [<- | Hin]; [eapply truthyText_nonempty; exact E | auto].
Qed.

Lemma last_In {A} (l : list A) x : last l = Some x -> In x l.
Proof.
  induction l as [|y l IH]; [discriminate|].
  rewrite last_cons. destruct (last l) as [z|].
  - intros [= ->]. right. auto.
  - intros [= ->]. left. reflexivity.
Qed.

Section MoreGenerationProperties.
Context `{Engine}.

(** A fulfilled call stems from a response that is not blocked, whose
    parts could be read and hold an inline image. *)
Lemma generateHairstyleImage_fulfilled response g :
  generateHairstyleImage response = Fulfilled g ->
  exists r parts blob,
    response = Fulfilled r
    /\ reportedBlockReason r = None
    /\ scannedParts r = Some parts
    /\ last (inlineImages parts) = Some blob
    /\ g = {| imageUrl := dataUrl blob;
              text := snd (scanParts parts ([], defaultCaption)) |}.
Proof.
  intros Hg. destruct response as [r|e]; [|discriminate].
  destruct (reportedBlockReason r) as [reason|] eqn:Hb.
  { unfold generateHairstyleImage, generateHairstyleImage_try in Hg.
    rewrite Hb in Hg. discriminate. }
  destruct (scannedParts r) as [parts|] eqn:Hs.
  - rewrite (generateHairstyleImage_scan r parts Hb Hs) in Hg.
    destruct (last (inlineImages parts)) as [blob|] eqn:Hl; [|discriminate].
    injection Hg as <-. exists r, parts, blob. auto.
  - unfold generateHairstyleImage, generateHairstyleImage_try in Hg.
    rewrite Hb in Hg. unfold scannedParts in Hs.
    destruct (GenAI.candidates r) as [[|first rest]|]; try discriminate.
    destruct (GenAI.content first) as [content|]; [|discriminate].
    rewrite Hs in Hg. discriminate.
Qed.

(** X3.  For a response that is not blocked and whose parts can be read
    (those of the first candidate, none without candidates),
    [generateHairstyleImage] rejects with the no-image error exactly when
    none of these parts holds inline data, and otherwise returns the data URL
    of the last part that does: data: followed by its media type, ;base64,
    and its data. *)
Theorem generateHairstyleImage_no_image_iff response parts :
  reportedBlockReason response = None ->
  scannedParts response = Some parts ->
  (generateHairstyleImage (Fulfilled response) = Rejected NoImageProducedError
   <-> inlineImages parts = [])
  /\ (forall blob,
        last (inlineImages parts) = Some blob ->
        exists caption,
          generateHairstyleImage (Fulfilled response)
          = Fulfilled
              {| imageUrl :=
                   js "data:" ++ default (js "undefined") (GenAI.mimeType blob)
                   ++ js ";base64," ++ default (js "undefined") (GenAI.data blob);
                 text := caption |}).
Proof.
  intros Hb Hs. rewrite (generateHairstyleImage_scan response parts Hb Hs).
  split.
  - destruct (inlineImages parts) as [|b l] eqn:E; simpl.
    + tauto.
    + rewrite last_cons. destruct (last l); split; discriminate.
  - intros blob ->. rewrite dataUrl_fields. eauto.
Qed.

(** X4.  The caption returned with an image is the last text, among the
    parts without inline data, that is not empty, and the fixed default
    caption when there is none; a text on a part that holds inline data is
    not used. *)
Theorem generateHairstyleImage_caption response parts g :
  scannedParts response = Some parts ->
  generateHairstyleImage (Fulfilled response) = Fulfilled g ->
  text g = from_option id defaultCaption (last (captionTexts parts)).
Proof.
  intros Hs Hg.
  destruct (generateHairstyleImage_fulfilled _ _ Hg)
    as (r & parts' & blob & [= <-] & _ & Hs' & _ & ->).
  rewrite Hs in Hs'. injection Hs' as <-.
  simpl. apply scanParts_caption.
Qed.

(** X5.  Whatever is returned carries a data URL (it starts with [data:]
    and holds [;base64,]) and a caption that is not empty. *)
Theorem generateHairstyleImage_result_shape response g :
  generateHairstyleImage response = Fulfilled g ->
  startsWith (imageUrl g) (js "data:") = true
  /\ includes (imageUrl g) (js ";base64,") = true
  /\ text g <> [].
Proof.
  intros Hg.
  destruct (generateHairstyleImage_fulfilled _ _ Hg)
    as (r & parts & blob & _ & _ & _ & _ & ->).
  cbn [imageUrl text]. split; [|split].
  - unfold dataUrl. apply startsWith_app.
  - unfold dataUrl. rewrite app_assoc. apply includes_middle.
  - rewrite scanParts_caption. cbn [snd].
    destruct (last (captionTexts parts)) as [t|] eqn:E; cbn [from_option id].
    + apply (captionTexts_nonempty parts), last_In, E.
    + discriminate.
Qed.

(** X6.  A [promptFeedback] without block reason, or with an empty one, is
    no block: the response is handled as if it had no [promptFeedback]. *)
Theorem generateHairstyleImage_unreported_block response feedback :
  GenAI.promptFeedback response = Some feedback ->
  GenAI.blockReason feedback = None \/ GenAI.blockReason feedback = Some [] ->
  generateHairstyleImage (Fulfilled response)
  = generateHairstyleImage
      (Fulfilled {| GenAI.promptFeedback := None;
                    GenAI.candidates := GenAI.candidates response |}).
Proof.
  intros Hf Hr.
  unfold generateHairstyleImage, generateHairstyleImage_try, reportedBlockReason.
  rewrite Hf. simpl. destruct Hr as [-> | ->]; reflexivity.
Qed.

(** X7.  When the service call itself fails, an Error is passed on with its
    name and message as they are, anything else that was thrown is replaced
    by the generic generation error; and every rejection of
    [generateHairstyleImage], whatever its cause, is an Error object. *)
Theorem generateHairstyleImage_rejections :
  (forall n m,
      generateHairstyleImage (Rejected (ErrorObject n m))
      = Rejected (ErrorObject n m))
  /\ generateHairstyleImage (Rejected OtherValue) = Rejected GenerationFailedError
  /\ (forall response e,
        generateHairstyleImage response = Rejected e ->
        exists n m, e = ErrorObject n m).
Proof.
  split; [reflexivity|]. split; [reflexivity|].
  intros response e. unfold generateHairstyleImage.
  destruct (generateHairstyleImage_try response) as [g | e0]; [discriminate|].
  intros [= <-]. destruct e0 as [n m|]; simpl; eauto.
Qed.

(** X8.  Whatever the service answers, the entry that the orchestrator
    writes for the call shows either an image with a URL that is not empty or
    an error text that is not empty, never both and never the spinner. *)
Theorem settledEntry_of_generateHairstyleImage response :
  loading (settledEntry (generateHairstyleImage response)) = false
  /\ ((exists u,
          u <> []
          /\ entry_url (settledEntry (generateHairstyleImage response)) = Some u
          /\ entry_error (settledEntry (generateHairstyleImage response)) = None)
      \/ (exists m,
            m <> []
            /\ entry_error (settledEntry (generateHairstyleImage response))
               = Some m
            /\ entry_url (settledEntry (generateHairstyleImage response))
               = None)).
Proof.
  destruct (generateHairstyleImage response) as [g|e] eqn:Hg; simpl.
  - split; [reflexivity|]. left. exists (imageUrl g). split; [|auto].
    destruct (generateHairstyleImage_fulfilled _ _ Hg)
      as (r & parts & blob & _ & _ & _ & _ & ->).
    simpl. discriminate.
  - split; [reflexivity|]. right. eexists. split; [|split; reflexivity].
    destruct e as [n m|]; simpl; [|discriminate].
    destruct (jseq m []) eqn:E; [discriminate|]. apply jseq_neq. exact E.
Qed.

End MoreGenerationProperties.

(** ** More on [analyzeFaceShape] *)

Lemma includes_nonempty s p : includes s p = true -> p <> [] -> s <> [].
Proof. intros Hi Hp ->. destruct p; [congruence | discriminate]. Qed.

Section MoreAnalysisProperties.
Context `{Engine}.

(** X9.  A text that decodes to an object is returned as decoded, with all
    its members and whatever their types, when its members faceShape and
    hairstyles are both truthy; otherwise it is rejected with the
    malformed-response error. *)
Theorem analyzeFaceShape_object (s : jsstring) members :
  JSON_parse s = Some (JObject members) ->
  analyzeFaceShape (Fulfilled (Some s))
  = if falsy (lastMember members (js "faceShape"))
       || falsy (lastMember members (js "hairstyles"))
    then Rejected MalformedResponseError
    else Fulfilled (JObject members).
Proof.
  intros Hp.
  assert (He : isEmptyResponse (Some s) = false).
  { destruct (isEmptyResponse (Some s)) eqn:E; [|reflexivity].
    destruct (JSON_parse_empty_response s E) as [Hn | Hn]; congruence. }
  unfold analyzeFaceShape, analyzeFaceShape_try. rewrite He, Hp.
  unfold isInvalidStructure, getField. simpl truthy. simpl typeofObject.
  simpl negb. simpl orb.
  destruct (falsy _ || falsy _); reflexivity.
Qed.

(** X10.  Every rejection of [analyzeFaceShape] is an Error whose message
    is not empty, so that the caller's [err.message || ...] always shows the
    message itself and never its fallback text. *)
Theorem analyzeFaceShape_message_shown response e fallback :
  analyzeFaceShape response = Rejected e ->
  exists n m, e = ErrorObject n m /\ m <> [] /\ messageOr e fallback = m.
Proof.
  unfold analyzeFaceShape.
  destruct (analyzeFaceShape_try response) as [v | e0]; [discriminate|].
  intros [= <-]. rewrite analyzeFaceShape_catch_marker.
  assert (Hm : forall n m, m <> [] ->
            exists n' m', ErrorObject n m = ErrorObject n' m' /\ m' <> []
                          /\ messageOr (ErrorObject n m) fallback = m').
  { intros n m Hne. exists n, m. split; [reflexivity|]. split; [exact Hne|].
    simpl. destruct (jseq m []) eqn:E; [|reflexivity].
    apply jseq_eq in E. contradiction. }
  destruct (carriesMarker e0) eqn:Hc.
  - destruct e0 as [n m|]; [|discriminate]. apply Hm.
    simpl in Hc. eapply includes_nonempty; [exact Hc | discriminate].
  - apply Hm. discriminate.
Qed.

End MoreAnalysisProperties.

(** ** Every world the events can lead to is consistent *)

Lemma messageOr_nonempty e fallback : fallback <> [] -> messageOr e fallback <> [].
Proof.
  intros Hf. destruct e as [n m|]; simpl; [|exact Hf].
  destruct (jseq m []) eqn:E; [exact Hf|]. apply jseq_neq. exact E.
Qed.

Lemma settledEntry_shape r : entryShape (settledEntry r).
Proof.
  destruct r as [g|e]; simpl.
  - right; left. eauto.
  - right; right. eexists. split; [|reflexivity].
    apply messageOr_nonempty. discriminate.
Qed.

(** The object built for a list of hairstyles on top of [m]: the loading
    entry at every name of the list, [m] elsewhere. *)
Lemma foldl_loading_lookup styles : forall (m : gmap jsstring GeneratedImageEntry) k,
  foldl (fun m style => <[name style := loadingEntry]> m) m styles !! k
  = if decide (k ∈ map name styles) then Some loadingEntry else m !! k.
Proof.
  induction styles as [|style styles IH]; intros m k; cbn [foldl map].
  - rewrite decide_False by (intros Hin; inversion Hin). reflexivity.
  - rewrite IH. destruct (decide (k ∈ map name styles)) as [Hin|Hnin].
    + rewrite decide_True by (right; exact Hin). reflexivity.
    + destruct (decide (name style = k)) as [<-|Hne].
      * rewrite decide_True by left. apply lookup_insert_eq.
      * rewrite lookup_insert_ne by exact Hne.
        rewrite decide_False; [reflexivity|].
        intros Hin. apply elem_of_cons in Hin as [-> | Hin]; contradiction.
Qed.

Lemma initialImageStates_lookup styles k :
  initialImageStates styles !! k
  = if decide (k ∈ map name styles) then Some loadingEntry else None.
Proof. unfold initialImageStates. rewrite foldl_loading_lookup. reflexivity. Qed.

Lemma initialImageStates_shaped styles :
  map_Forall (fun _ e => entryShape e) (initialImageStates styles).
Proof.
  intros k e. rewrite initialImageStates_lookup.
  case_decide; [|discriminate]. intros [= <-]. left. reflexivity.
Qed.

Lemma consistent_initialWorld : consistent initialWorld.
Proof.
  constructor; simpl; try discriminate.
  - auto.
  - intros [x Hx]. discriminate.
Qed.

Lemma consistent_reset w fr ac gb :
  consistent {| component := handleReset (component w); fileReads := fr;
                analysisCalls := ac; generationBatches := gb |}.
Proof.
  constructor; simpl; try discriminate.
  - auto.
  - intros [x Hx]. discriminate.
Qed.

Lemma consistent_dispatch w e : consistent w -> consistent (dispatch w e).
Proof.
  intros Hc. destruct Hc as [HG HA HU HE HI HP HS].
  assert (Hc : consistent w) by (constructor; assumption).
  destruct e as [| |i r| |i r|preference|b i r]; simpl.
  - apply consistent_reset.
  - apply consistent_reset.
  - unfold processFile_resume.
    destruct (fileReads w !! i) as [[|]|]; try exact Hc.
    destruct r as [image|]; constructor; simpl; try discriminate;
      try exact HS.
    + intros _. exists image. reflexivity.
    + intros Hp. split; [exists image; reflexivity | apply HP, Hp].
    + intros _. eexists. split; [reflexivity | discriminate].
    + exact HP.
  - unfold handleAnalyzeClick.
    destruct (originalImage (component w)) as [image|] eqn:Hi; [|exact Hc].
    constructor; simpl; try discriminate.
    + intros _. rewrite Hi. split; [exists image; reflexivity|].
      exists (length (analysisCalls w)), (base64 image, mimeType image).
      apply list_lookup_middle. reflexivity.
    + intros [x Hx]. discriminate.
  - unfold handleAnalyzeClick_resume.
    destruct (analysisCalls w !! i) as [[args|]|]; try exact Hc.
    destruct r as [result|err]; constructor; simpl; try discriminate;
      try exact HS.
    + intros Hp. split; [apply HP, Hp | exists result; reflexivity].
    + intros _. eexists. split; [reflexivity|].
      apply messageOr_nonempty. discriminate.
    + exact HP.
  - unfold handlePreferenceSelect.
    destruct (originalImage (component w)) as [image|] eqn:Hi; [|exact Hc].
    destruct (analysisResult (component w)) as [analysis|] eqn:Ha; [|exact Hc].
    destruct (isGENERATING (appState (component w))); [exact Hc|].
    destruct (generationCalls image analysis preference) as [|c calls] eqn:E;
      constructor; simpl; try discriminate;
      try apply initialImageStates_shaped.
    + intros _. rewrite Hi, Ha. split; [exists image | exists analysis]; reflexivity.
    + intros _. rewrite Hi, Ha.
      split; [exists image; reflexivity|].
      split; [exists analysis; reflexivity|].
      exists preference; reflexivity.
    + intros _. rewrite Hi, Ha. split; [exists image | exists analysis]; reflexivity.
  - unfold handlePreferenceSelect_resume.
    destruct (generationBatches w !! b) as [batch|] eqn:Hb; [|exact Hc].
    destruct (batch !! i) as [[call|]|] eqn:Hcall; try exact Hc.
    assert (Hs' : map_Forall (fun _ e => entryShape e)
                    (<[Call.hairstyleName call := settledEntry r]>
                       (generatedImages (component w)))).
    { apply map_Forall_insert_2; [apply settledEntry_shape | exact HS]. }
    destruct (allSettled (<[i := None]> batch)) eqn:Hall;
      constructor; simpl; try discriminate; try assumption.
Qed.

Lemma consistent_run events : forall w, consistent w -> consistent (run w events).
Proof.
  induction events as [|e events IH]; intros w Hc; [exact Hc|].
  apply IH, consistent_dispatch, Hc.
Qed.

Lemma consistent_reachable events : consistent (run initialWorld events).
Proof. apply consistent_run, consistent_initialWorld. Qed.


(** X12.  Whatever the events so far, when the state is ANALYZING the photo
    is in place and an analysis call is in flight. *)
Theorem analyzing_has_call_in_flight events :
  appState (component (run initialWorld events)) = ANALYZING ->
  is_Some (originalImage (component (run initialWorld events)))
  /\ hasPendingAnalysis (run initialWorld events).
Proof. apply (analyzing_ready _ (consistent_reachable events)). Qed.

(** X13.  Whenever the analyse button is drawn, a click on it starts an
    analysis of the photo in place: the state becomes ANALYZING and one call
    with that photo is added to those in flight. *)
Theorem analyze_button_is_live events :
  showsAnalyzeButton (component (run initialWorld events)) = true ->
  exists image,
    originalImage (component (run initialWorld events)) = Some image
    /\ appState (component (dispatch (run initialWorld events) AnalyzeClick))
       = ANALYZING
    /\ analysisCalls (dispatch (run initialWorld events) AnalyzeClick)
       = analysisCalls (run initialWorld events)
         ++ [Some (base64 image, mimeType image)].
Proof.
  intros Hs. unfold showsAnalyzeButton in Hs.
  apply andb_true_iff in Hs as [_ Hu].
  assert (Hst : appState (component (run initialWorld events)) = IMAGE_UPLOADED).
  { destruct (appState (component (run initialWorld events)));
      try discriminate. reflexivity. }
  destruct (uploaded_ready _ (consistent_reachable events) Hst) as [image Hi].
  exists image. split; [exact Hi|].
  simpl. unfold handleAnalyzeClick. rewrite Hi. split; reflexivity.
Qed.

(** X14.  Whatever the events so far, when the state is ERROR an error
    message is stored and it is not empty. *)
Theorem error_state_has_message events :
  appState (component (run initialWorld events)) = ERROR ->
  exists m, error (component (run initialWorld events)) = Some m /\ m <> [].
Proof. apply (error_present _ (consistent_reachable events)). Qed.

(** X15.  Whatever the events so far, when the state is INITIAL no photo,
    analysis, preference or error is stored, and the first view is the one
    drawn. *)
Theorem initial_state_is_cleared events :
  appState (component (run initialWorld events)) = INITIAL ->
  originalImage (component (run initialWorld events)) = None
  /\ analysisResult (component (run initialWorld events)) = None
  /\ haircutPreference (component (run initialWorld events)) = None
  /\ error (component (run initialWorld events)) = None
  /\ rendersPostAnalysisView (component (run initialWorld events)) = false.
Proof.
  intros Hst.
  destruct (initial_cleared _ (consistent_reachable events) Hst)
    as (H1 & H2 & H3 & H4).
  repeat split; try assumption. unfold rendersPostAnalysisView.
  rewrite H2. reflexivity.
Qed.

(** X16.  Whatever the events so far, a preference is stored only together
    with a photo and an analysis. *)
Theorem preference_needs_analysis events :
  is_Some (haircutPreference (component (run initialWorld events))) ->
  is_Some (originalImage (component (run initialWorld events)))
  /\ is_Some (analysisResult (component (run initialWorld events))).
Proof. apply (preference_ready _ (consistent_reachable events)). Qed.

(** X17.  Whatever the events so far, the card of a hairstyle shows at most
    one of spinner, error text and image, and a text or URL that is shown
    is not empty. *)
Theorem cards_show_one_thing events style :
  cardShape (renderCard (component (run initialWorld events)) style).
Proof.
  pose proof (entries_shaped _ (consistent_reachable events)) as Hs.
  unfold renderCard.
  destruct (generatedImages (component (run initialWorld events)) !! name style)
    as [e|] eqn:He; [|apply card_empty].
  destruct (Hs _ _ He) as [-> | [[u ->] | (m & Hm & ->)]]; simpl.
  - apply card_loading.
  - destruct (jseq u []) eqn:E; [apply card_empty|].
    apply card_done, jseq_neq, E.
  - destruct (jseq m []) eqn:E; [apply jseq_eq in E; contradiction|].
    apply card_failed, Hm.
Qed.

(** ** The mapping of a run *)



(** X18.  Right after a preference is selected the mapping holds the loading
    entry for each suggested hairstyle and nothing else: what an earlier
    preference or run had left is gone.  (No hairstyle may be named
    [__proto__]: assigning under that name, as the source does here, sets
    the prototype of the object instead of a key.) *)
Theorem handlePreferenceSelect_fresh_mapping w image analysis preference k :
  originalImage (component w) = Some image ->
  analysisResult (component w) = Some analysis ->
  appState (component w) <> GENERATING ->
  (forall style, style ∈ hairstyles analysis -> name style <> js "__proto__") ->
  generatedImages (component (handlePreferenceSelect w preference)) !! k
  = if decide (k ∈ map name (hairstyles analysis)) then Some loadingEntry
    else None.
Proof.
  intros Himg Han Hst _. unfold handlePreferenceSelect.
  rewrite Himg, Han, (isGENERATING_false _ Hst).
  destruct (generationCalls image analysis preference); simpl;
    apply initialImageStates_lookup.
Qed.




(** ** The prompt of the second copy *)

Lemma includes_self s : includes s s = true.
Proof.
  apply includes_startsWith. rewrite <- (app_nil_r s) at 1.
  apply startsWith_app.
Qed.

(** X23.  In the second copy of the service file the table of cut
    definitions has an entry for every member of [HaircutPreference], and
    the prompt prints the line of each of them whatever the preference it is
    built for. *)
Theorem prompt_secondCopy_covers_type p :
  In p HaircutPreference ->
  exists d,
    lookupDefinition preferenceDefinitions_secondCopy p = Some d
    /\ forall hairstyleName originalHairLength haircutPreference,
         includes
           (prompt_secondCopy hairstyleName originalHairLength haircutPreference)
           (js "*   **" ++ p ++ js ":** " ++ d)
         = true.
Proof.
  intros [<- | [<- | [<- | []]]]; eexists; (split; [reflexivity|]);
    intros h l q; unfold prompt_secondCopy.
  - eapply includes_joinLines; [do 8 right; left; reflexivity|].
    apply includes_self.
  - eapply includes_joinLines; [do 9 right; left; reflexivity|].
    apply includes_self.
  - eapply includes_joinLines; [do 10 right; left; reflexivity|].
    apply includes_self.
Qed.

(** ** The statements above at sample inputs *)

(** X1 at the data URL of a PNG file. *)
Lemma toBase64_onload_dataUrl_witness :
  toBase64_onload (js "data:image/png;base64,QUJD")
  = (Some (js "QUJD"), Some (js "image/png")).
Proof.
  apply (toBase64_onload_dataUrl (js "image/png") (js "base64") (js "QUJD"));
    repeat constructor; discriminate.
Defined.

(** X3 at the response with two candidates, and at a response without
    candidates. *)
Lemma generateHairstyleImage_no_image_iff_witness :
  (exists caption,
      @generateHairstyleImage plainEngine (Fulfilled twoCandidatesResponse)
      = Fulfilled {| imageUrl := js "data:image/jpeg;base64,BBBB";
                     text := caption |})
  /\ @generateHairstyleImage plainEngine
       (Fulfilled {| GenAI.promptFeedback := None; GenAI.candidates := None |})
     = Rejected NoImageProducedError.
Proof.
  split.
  - apply (proj2 (@generateHairstyleImage_no_image_iff plainEngine
                    twoCandidatesResponse _ eq_refl eq_refl)
             {| GenAI.data := Some (js "BBBB");
                GenAI.mimeType := Some (js "image/jpeg") |}).
    reflexivity.
  - apply (proj1 (@generateHairstyleImage_no_image_iff plainEngine
                    {| GenAI.promptFeedback := None; GenAI.candidates := None |}
                    [] eq_refl eq_refl)).
    reflexivity.
Defined.

(** X4 at a response with a text on the image part, a caption before it and
    an empty text after it: the caption is the one returned. *)
Lemma generateHairstyleImage_caption_witness :
  text {| imageUrl := js "data:image/png;base64,AAAA"; text := js "Gaya bob" |}
  = from_option id defaultCaption
      (last (captionTexts
               [ textPart (js "Gaya bob");
                 {| GenAI.inlineData :=
                      Some {| GenAI.data := Some (js "AAAA");
                              GenAI.mimeType := Some (js "image/png") |};
                    GenAI.text := Some (js "diabaikan") |};
                 textPart [] ])).
Proof.
  apply (@generateHairstyleImage_caption plainEngine captionedResponse).
  - reflexivity.
  - vm_compute. reflexivity.
Defined.

(** X5 at the same response. *)
Lemma generateHairstyleImage_result_shape_witness :
  startsWith (js "data:image/png;base64,AAAA") (js "data:") = true
  /\ includes (js "data:image/png;base64,AAAA") (js ";base64,") = true
  /\ js "Gaya bob" <> [].
Proof.
  apply (@generateHairstyleImage_result_shape plainEngine
           (Fulfilled captionedResponse)
           {| imageUrl := js "data:image/png;base64,AAAA";
              text := js "Gaya bob" |}).
  vm_compute. reflexivity.
Defined.

(** X6 at the same response, whose block reason is the empty text. *)
Lemma generateHairstyleImage_unreported_block_witness :
  @generateHairstyleImage plainEngine (Fulfilled captionedResponse)
  = @generateHairstyleImage plainEngine
      (Fulfilled {| GenAI.promptFeedback := None;
                    GenAI.candidates := GenAI.candidates captionedResponse |}).
Proof.
  apply (@generateHairstyleImage_unreported_block plainEngine captionedResponse
           {| GenAI.blockReason := Some [] |} eq_refl).
  right. reflexivity.
Defined.

(** X9 at an object whose hairstyles are a text. *)
Lemma analyzeFaceShape_object_witness :
  @analyzeFaceShape plainEngine (Fulfilled (Some oddHairstylesText))
  = Fulfilled (JObject [ (js "faceShape", JString (js "Oval"));
                         (js "hairstyles", JString (js "none"));
                         (js "note", JNumber (JsNumber false 1 0)) ]).
Proof.
  apply (@analyzeFaceShape_object plainEngine oddHairstylesText
           [ (js "faceShape", JString (js "Oval"));
             (js "hairstyles", JString (js "none"));
             (js "note", JNumber (JsNumber false 1 0)) ]).
  vm_compute. reflexivity.
Defined.

(** X10 at a text that is no JSON. *)
Lemma analyzeFaceShape_message_shown_witness :
  exists n m,
    AnalysisFailedError = ErrorObject n m /\ m <> []
    /\ messageOr AnalysisFailedError
         (js "Terjadi kesalahan yang tidak diketahui saat analisis.") = m.
Proof.
  apply (@analyzeFaceShape_message_shown plainEngine
           (Fulfilled (Some (js "Maaf, tidak bisa.")))).
  vm_compute. reflexivity.
Defined.


(** X12 after the click on the analyse button. *)
Lemma analyzing_has_call_in_flight_witness :
  is_Some (originalImage
             (component (run initialWorld
                           [ FileChosen; FileRead 0 (Some sampleImage);
                             AnalyzeClick ])))
  /\ hasPendingAnalysis
       (run initialWorld
          [FileChosen; FileRead 0 (Some sampleImage); AnalyzeClick]).
Proof.
  apply (analyzing_has_call_in_flight
           [FileChosen; FileRead 0 (Some sampleImage); AnalyzeClick]).
  vm_compute. reflexivity.
Defined.

(** X13 after the photo was read. *)
Lemma analyze_button_is_live_witness :
  exists image,
    originalImage
      (component (run initialWorld [FileChosen; FileRead 0 (Some sampleImage)]))
    = Some image
    /\ appState
         (component
            (dispatch
               (run initialWorld [FileChosen; FileRead 0 (Some sampleImage)])
               AnalyzeClick))
       = ANALYZING
    /\ analysisCalls
         (dispatch
            (run initialWorld [FileChosen; FileRead 0 (Some sampleImage)])
            AnalyzeClick)
       = analysisCalls
           (run initialWorld [FileChosen; FileRead 0 (Some sampleImage)])
         ++ [Some (base64 image, mimeType image)].
Proof.
  apply (analyze_button_is_live [FileChosen; FileRead 0 (Some sampleImage)]).
  vm_compute. reflexivity.
Defined.

(** X14 after a file that could not be read. *)
Lemma error_state_has_message_witness :
  exists m,
    error (component (run initialWorld [FileChosen; FileRead 0 None])) = Some m
    /\ m <> [].
Proof.
  apply (error_state_has_message [FileChosen; FileRead 0 None]).
  vm_compute. reflexivity.
Defined.

(** X15 after a reset in the middle of the sample run. *)
Lemma initial_state_is_cleared_witness :
  originalImage (component (run initialWorld (generatingEvents ++ [ResetClick])))
  = None
  /\ analysisResult
       (component (run initialWorld (generatingEvents ++ [ResetClick]))) = None
  /\ haircutPreference
       (component (run initialWorld (generatingEvents ++ [ResetClick]))) = None
  /\ error (component (run initialWorld (generatingEvents ++ [ResetClick])))
     = None
  /\ rendersPostAnalysisView
       (component (run initialWorld (generatingEvents ++ [ResetClick]))) = false.
Proof.
  apply (initial_state_is_cleared (generatingEvents ++ [ResetClick])).
  vm_compute. reflexivity.
Defined.

(** X16 at the sample run. *)
Lemma preference_needs_analysis_witness :
  is_Some (originalImage (component (run initialWorld generatingEvents)))
  /\ is_Some (analysisResult (component (run initialWorld generatingEvents))).
Proof.
  apply (preference_needs_analysis generatingEvents).
  exists (js "Pendek"). vm_compute. reflexivity.
Defined.

(** X18 at the sample analysis, for the key Bob. *)
Lemma handlePreferenceSelect_fresh_mapping_witness :
  generatedImages (component generatingWorld) !! js "Bob"
  = if decide (js "Bob" ∈ map name (hairstyles sampleAnalysis))
    then Some loadingEntry else None.
Proof.
  apply (handlePreferenceSelect_fresh_mapping analyzedWorld sampleImage
           sampleAnalysis (js "Pendek") (js "Bob") eq_refl eq_refl).
  - intros E. vm_compute in E. discriminate E.
  - intros style Hin. apply list_elem_of_In in Hin. simpl in Hin.
    destruct Hin as [<- | [<- | [<- | []]]]; discriminate.
Defined.



(** X21 at the last call of the sample run. *)
Lemma COMPLETE_only_by_join_witness :
  (exists b i r batch call,
      GenerationSettled 0 1 (Fulfilled sampleResult) = GenerationSettled b i r
      /\ generationBatches twoSettledWorld !! b = Some batch
      /\ batch !! i = Some (Some call)
      /\ allSettled (<[i := None]> batch) = true)
  \/ (exists preference analysis,
        GenerationSettled 0 1 (Fulfilled sampleResult)
        = PreferenceSelect preference
        /\ analysisResult (component twoSettledWorld) = Some analysis
        /\ hairstyles analysis = []).
Proof.
  apply (COMPLETE_only_by_join twoSettledWorld
           (GenerationSettled 0 1 (Fulfilled sampleResult))).
  - intros E. vm_compute in E. discriminate E.
  - vm_compute. reflexivity.
Defined.

(** X22 at the data URL of a PNG file. *)
Lemma upload_round_trip_witness :
  exists b m blob,
    toBase64_onload (js "data:image/png;base64,QUJD") = (Some b, Some m)
    /\ GenAI.inlineData (fileToGenerativePart b m) = Some blob
    /\ dataUrl blob = js "data:image/png;base64,QUJD".
Proof.
  apply (upload_round_trip (js "image/png") (js "QUJD"));
    repeat constructor; discriminate.
Defined.

(** X23 at the preference Rapikan. *)
Lemma prompt_secondCopy_covers_type_witness :
  exists d,
    lookupDefinition preferenceDefinitions_secondCopy (js "Rapikan") = Some d
    /\ forall hairstyleName originalHairLength haircutPreference,
         includes
           (prompt_secondCopy hairstyleName originalHairLength haircutPreference)
           (js "*   **" ++ js "Rapikan" ++ js ":** " ++ d)
         = true.
Proof.
  apply (prompt_secondCopy_covers_type (js "Rapikan")). left. reflexivity.
Defined.
